(** * monitor_numbers.py: a shallow embedding and its verified properties

    The program samples a number from a shell command or from a file once per
    interval, keeps the last reported in-range value, and beeps when a new
    in-range sample differs from it by more than a threshold.

    Modelling choices.
    - A Python [float] is an IEEE 754 binary64 number: [spec_float] with
      precision 53 and maximal exponent 1024, and the operations of
      [SpecFloat], which compute.
    - A Python [str] is a [string] whose characters are code points below
      256; on these the whitespace set of [str.split] and the grammar of
      [float] are the ones written below.
    - Effects (standard error, the beep, the printed line, the sleep, an
      uncaught exception) are collected by a small writer and error monad;
      what the operating system answers in one iteration is an explicit
      argument. *)

From Stdlib Require Import ZArith NArith Bool List Ascii String Lia.
From Stdlib Require Import Floats.SpecFloat.
Import ListNotations.

Local Open Scope string_scope.
Local Open Scope bool_scope.

(** ** Binary64 floating-point numbers *)

Definition float : Type := spec_float.

Module Float64.

Definition prec : Z := 53.
Definition emax : Z := 1024.

Definition zero : float := S754_zero false.
Definition nan : float := S754_nan.

Definition is_nan (x : float) : bool :=
  match x with S754_nan => true | _ => false end.

(** [x - y] and [abs(x)] *)
Definition sub (x y : float) : float := SFsub prec emax x y.
Definition abs (x : float) : float := SFabs x.

(** [x < y], [x > y], [x <= y], [x == y]; each is false when an operand
    is a NaN. *)
Definition lt (x y : float) : bool :=
  match SFcompare x y with Some Lt => true | _ => false end.
Definition gt (x y : float) : bool :=
  match SFcompare x y with Some Gt => true | _ => false end.
Definition le (x y : float) : bool :=
  match SFcompare x y with Some (Lt | Eq) => true | _ => false end.
Definition eqb (x y : float) : bool :=
  match SFcompare x y with Some Eq => true | _ => false end.

(** The binary64 number nearest to [digits * 10 ^ exp10] (ties to even),
    with the sign [neg]: the value of a decimal literal. An overflow
    gives an infinity, an underflow a subnormal number or a zero. *)
Definition of_decimal (neg : bool) (digits : N) (exp10 : Z) : float :=
  match digits with
  | N0 => S754_zero neg
  | Npos m =>
      if (0 <=? exp10)%Z
      then binary_round prec emax neg (m * Z.to_pos (10 ^ exp10)) 0
      else SFdiv prec emax (S754_finite neg m 0)
                 (S754_finite false (Z.to_pos (10 ^ (- exp10))) 0)
  end.

End Float64.

(** ** Text: [str.replace], [str.split] and [float(str)] *)

Definition code (c : ascii) : N := N_of_ascii c.

(** [c.isspace()] on the code points below 256. *)
Definition isspace (c : ascii) : bool :=
  let n := code c in
  ((9 <=? n) && (n <=? 13) || (28 <=? n) && (n <=? 32)
   || (n =? 133) || (n =? 160))%N.

Definition is_comma (c : ascii) : bool := Ascii.eqb c ",".

Definition is_digit (c : ascii) : bool :=
  let n := code c in ((48 <=? n) && (n <=? 57))%N.

Definition digit_val (c : ascii) : N := (code c - 48)%N.

Definition lower (c : ascii) : ascii :=
  let n := code c in
  if ((65 <=? n) && (n <=? 90))%N then ascii_of_N (n + 32) else c.

Fixpoint map_string (f : ascii -> ascii) (s : string) : string :=
  match s with
  | EmptyString => EmptyString
  | String c s' => String (f c) (map_string f s')
  end.

(** [s.replace(old, new)] for one-character [old] and [new]. *)
Definition replace (old new : ascii) (s : string) : string :=
  map_string (fun c => if Ascii.eqb c old then new else c) s.

(** The tokens of [s]: the maximal runs of characters that are not
    separators, left to right. [cur] is the run read so far. *)
Fixpoint split_on (sep : ascii -> bool) (cur : string) (s : string)
  : list string :=
  match s with
  | EmptyString =>
      match cur with EmptyString => [] | _ => [cur] end
  | String c s' =>
      if sep c
      then match cur with
           | EmptyString => split_on sep EmptyString s'
           | _ => cur :: split_on sep EmptyString s'
           end
      else split_on sep (cur ++ String c EmptyString) s'
  end.

(** [s.split()]: split on runs of whitespace, no empty token. *)
Definition split (s : string) : list string := split_on isspace EmptyString s.

(** The whitespace that [float] drops around a literal: tab to carriage
    return, the space, and the whitespace above 127; not the code points 28
    to 31, on which [str.split] does split. *)
Definition float_space (c : ascii) : bool :=
  let n := code c in
  ((9 <=? n) && (n <=? 13) || (n =? 32) || (n =? 133) || (n =? 160))%N.

Fixpoint lstrip (s : string) : string :=
  match s with
  | String c s' => if float_space c then lstrip s' else s
  | EmptyString => EmptyString
  end.

Fixpoint rstrip (s : string) : string :=
  match s with
  | EmptyString => EmptyString
  | String c s' =>
      match rstrip s' with
      | EmptyString =>
          if float_space c then EmptyString else String c EmptyString
      | r => String c r
      end
  end.

Definition strip (s : string) : string := rstrip (lstrip s).

(** *** The grammar of [float(str)]

<<
   floatvalue    ::= [sign] (floatnumber | "inf" | "infinity" | "nan")
   floatnumber   ::= number [exponent]
   number        ::= [digitpart] "." digitpart | digitpart ["."]
   exponent      ::= ("e" | "E") [sign] digitpart
   digitpart     ::= digit (["_"] digit)*
>>
    The words are read in any case; the whitespace [float_space] around
    the literal is dropped; the whole string has to be consumed, otherwise
    [float] raises [ValueError], here [None]. *)

(** The rest of a digitpart: [acc] is the number read so far and [cnt] the
    number of digits read; the result has the unread rest. *)
Fixpoint digitpart_tail (acc : N) (cnt : nat) (s : string)
  : N * nat * string :=
  match s with
  | String c s' =>
      if is_digit c
      then digitpart_tail (10 * acc + digit_val c)%N (S cnt) s'
      else if Ascii.eqb c "_"
      then match s' with
           | String d s'' =>
               if is_digit d
               then digitpart_tail (10 * acc + digit_val d)%N (S cnt) s''
               else (acc, cnt, s)
           | EmptyString => (acc, cnt, s)
           end
      else (acc, cnt, s)
  | EmptyString => (acc, cnt, s)
  end.

Definition digitpart (acc : N) (s : string) : option (N * nat * string) :=
  match s with
  | String c s' =>
      if is_digit c
      then Some (digitpart_tail (10 * acc + digit_val c)%N 1 s')
      else None
  | EmptyString => None
  end.

(** All the digits of a number as one integer, the number of digits after
    the point, and the rest. *)
Definition number (s : string) : option (N * nat * string) :=
  match digitpart 0 s with
  | Some (i, _, r) =>
      match r with
      | String "."%char r' =>
          match digitpart i r' with
          | Some res => Some res
          | None => Some (i, O, r')
          end
      | _ => Some (i, O, r)
      end
  | None =>
      match s with
      | String "."%char r' => digitpart 0 r'
      | _ => None
      end
  end.

Definition exponent (s : string) : option (Z * string) :=
  match s with
  | String c r =>
      if Ascii.eqb c "e" || Ascii.eqb c "E"
      then
        let '(neg, r1) :=
          match r with
          | String "+"%char r1 => (false, r1)
          | String "-"%char r1 => (true, r1)
          | _ => (false, r)
          end in
        match digitpart 0 r1 with
        | Some (n, _, r2) =>
            Some (if neg then (- Z.of_N n)%Z else Z.of_N n, r2)
        | None => None
        end
      else None
  | EmptyString => None
  end.

Definition floatnumber (neg : bool) (s : string) : option float :=
  match number s with
  | Some (m, k, EmptyString) =>
      Some (Float64.of_decimal neg m (- Z.of_nat k))
  | Some (m, k, r) =>
      match exponent r with
      | Some (e, EmptyString) =>
          Some (Float64.of_decimal neg m (e - Z.of_nat k))
      | _ => None
      end
  | None => None
  end.

Definition absfloatvalue (neg : bool) (s : string) : option float :=
  let l := map_string lower s in
  if String.eqb l "inf" || String.eqb l "infinity"
  then Some (S754_infinity neg)
  else if String.eqb l "nan" then Some S754_nan
  else floatnumber neg s.

(** [float(s)]; [None] stands for [ValueError]. *)
Definition float_of_string (s : string) : option float :=
  match strip s with
  | String "+"%char r => absfloatvalue false r
  | String "-"%char r => absfloatvalue true r
  | r => absfloatvalue false r
  end.

(** The number that a literal of the program text or of the command line
    denotes, as in [--threshold 0.3]. *)
Definition lit (s : string) : float :=
  match float_of_string s with
  | Some x => x
  | None => Float64.nan
  end.

(** ** The Value Extractor

    Both readers end with the same loop (lines 96-100 and 120-124):
<<
    for token in text.replace(",", " ").split():
        try:
            return float(token)
        except ValueError:
            continue
>>
*)

Fixpoint first_float (tokens : list string) : option float :=
  match tokens with
  | [] => None
  | token :: rest =>
      match float_of_string token with
      | Some x => Some x
      | None => first_float rest
      end
  end.

Definition tokens_of (text : string) : list string :=
  split (replace "," " " text).

Definition extract_value (text : string) : option float :=
  first_float (tokens_of text).

(** ** The range check (lines 146-153) *)

Definition value_in_range (value : float) (min_value max_value : option float)
  : bool :=
  if match min_value with
     | Some lo => Float64.lt value lo
     | None => false
     end
  then false
  else if match max_value with
          | Some hi => Float64.gt value hi
          | None => false
          end
  then false
  else true.

(** ** Effects

    A computation returns a value or raises an exception that nothing
    catches, and leaves a trace of what it did to the outside world. *)

Inductive exn : Type :=
| FileNotFoundError
| OSError (msg : string)      (* an [OSError] other than [FileNotFoundError] *)
| UnicodeDecodeError
| AttributeError.

Inductive result (A : Type) : Type :=
| Ok (a : A)
| Raise (e : exn).

Arguments Ok {A} a.
Arguments Raise {A} e.

(** The messages written to standard error, one per write, by what they
    report. *)
Inductive stderr_line : Type :=
| CommandExited (command : string) (returncode : Z) (stderr : string)
| NoNumberInOutput (command : string)
| FileNotFound (path : string)
| FailedToRead (path : string) (exc : string)
| NoNumberInFile (path : string).

Inductive event : Type :=
| Run (command : string)            (* subprocess.run(command, shell=True) *)
| ReadText (path : string)          (* path.read_text(encoding="utf-8") *)
| StderrWrite (line : stderr_line)  (* sys.stderr.write *)
| Beep                              (* the tone, or the bell character *)
| PrintChange (old new : float)     (* "[time] Value changed: old -> new" *)
| Sleep (seconds : float).          (* time.sleep *)

Definition Eff (A : Type) : Type := list event * result A.

Definition ret {A} (a : A) : Eff A := ([], Ok a).
Definition raise {A} (e : exn) : Eff A := ([], Raise e).
Definition emit (ev : event) : Eff unit := ([ev], Ok tt).

Definition bind {A B} (c : Eff A) (k : A -> Eff B) : Eff B :=
  match c with
  | (log, Ok a) => let '(log', r) := k a in ((log ++ log')%list, r)
  | (log, Raise e) => (log, Raise e)
  end.

Notation "x <- c ;; k" := (bind c (fun x => k))
  (at level 61, c at next level, right associativity).
Notation "c ;; k" := (bind c (fun _ => k))
  (at level 61, right associativity).

Definition trace {A} (c : Eff A) : list event := fst c.
Definition outcome {A} (c : Eff A) : result A := snd c.

(** What the operating system answers during one iteration. *)
Record CompletedProcess : Type := {
  returncode : Z;
  stdout : string;
  stderr : string
}.

Record OS : Type := {
  run : string -> result CompletedProcess;
  read_text : string -> result string
}.

(** ** The Source Reader *)

(** Lines 79-105. *)
Definition fetch_value_from_command (os : OS) (command : string)
  : Eff (option float) :=
  emit (Run command) ;;
  match run os command with
  | Raise e => raise e
  | Ok process =>
      if negb (returncode process =? 0)%Z
      then
        emit (StderrWrite
                (CommandExited command (returncode process) (stderr process))) ;;
        ret None
      else
        match first_float (tokens_of (stdout process)) with
        | Some x => ret (Some x)
        | None =>
            emit (StderrWrite (NoNumberInOutput command)) ;;
            ret None
        end
  end.

(** Lines 108-127. [path] is [None] when the caller passes Python's [None],
    which has no [read_text]. *)
Definition fetch_value_from_file (os : OS) (path : option string)
  : Eff (option float) :=
  match path with
  | None => raise AttributeError
  | Some p =>
      emit (ReadText p) ;;
      match read_text os p with
      | Raise FileNotFoundError =>
          emit (StderrWrite (FileNotFound p)) ;;
          ret None
      | Raise (OSError exc) =>
          emit (StderrWrite (FailedToRead p exc)) ;;
          ret None
      | Raise e => raise e
      | Ok content =>
          match first_float (tokens_of content) with
          | Some x => ret (Some x)
          | None =>
              emit (StderrWrite (NoNumberInFile p)) ;;
              ret None
          end
      end
  end.

(** ** The Alert Emitter (lines 130-143) *)

Definition beep : Eff unit := emit Beep.

(** ** The Monitor Loop (lines 156-184) *)

(** The [argparse.Namespace] built by [parse_arguments]. *)
Record Namespace : Type := {
  command : option string;
  file : option string;
  interval : float;
  min_value : option float;
  max_value : option float;
  threshold : float
}.

(** Lines 162-165: [if args.command:] is the truth value of the string, so
    [None] and the empty string both take the [else] branch. *)
Definition acquire (args : Namespace) (os : OS) : Eff (option float) :=
  match command args with
  | Some (String _ _ as cmd) => fetch_value_from_command os cmd
  | _ => fetch_value_from_file os (file args)
  end.

(** Lines 171-182: the Change Detector. The result is the new
    [last_value]. *)
Definition change_detector (args : Namespace) (last_value : option float)
  (value : float) : Eff (option float) :=
  if negb (value_in_range value (min_value args) (max_value args))
  then ret None
  else
    match last_value with
    | None => ret (Some value)
    | Some last =>
        if Float64.gt (Float64.abs (Float64.sub value last)) (threshold args)
        then
          beep ;;
          emit (PrintChange last value) ;;
          ret (Some value)
        else ret (Some last)
    end.

(** One turn of [while True:], lines 162-184. [time.sleep] is recorded with
    its argument and taken to return, as it does for the intervals that
    [sleep_accepts] describes below; for a negative, a NaN or an infinite
    interval the call raises instead, and what is proved of the sleeps of a
    run assumes an accepted interval. *)
Definition monitor_body (args : Namespace) (os : OS)
  (last_value : option float) : Eff (option float) :=
  value <- acquire args os ;;
  match value with
  | None =>
      emit (Sleep (interval args)) ;;
      ret last_value
  | Some value =>
      last_value' <- change_detector args last_value value ;;
      emit (Sleep (interval args)) ;;
      ret last_value'
  end.

(** The loop never ends by itself; [world] lists what the operating system
    answers in the first [length world] iterations. *)
Fixpoint monitor_loop (args : Namespace) (world : list OS)
  (last_value : option float) : Eff (option float) :=
  match world with
  | [] => ret last_value
  | os :: rest =>
      last_value' <- monitor_body args os last_value ;;
      monitor_loop args rest last_value'
  end.

(** Line 159: [last_value] starts as [None]. *)
Definition monitor (args : Namespace) (world : list OS)
  : Eff (option float) :=
  monitor_loop args world None.

(** The Change Detector run over a sequence of obtained samples. *)
Fixpoint feed (args : Namespace) (last_value : option float)
  (samples : list float) : Eff (option float) :=
  match samples with
  | [] => ret last_value
  | value :: rest =>
      last_value' <- change_detector args last_value value ;;
      feed args last_value' rest
  end.

Definition is_alert (ev : event) : bool :=
  match ev with
  | Beep | PrintChange _ _ => true
  | _ => false
  end.

(** The alerts of a trace: the beeps and the printed lines. *)
Definition alerts (log : list event) : list event := filter is_alert log.

(** ** Notions used by the properties *)

(** A run of characters without a separator, and a token: such a run that
    is not empty. *)
Fixpoint no_sep (sep : ascii -> bool) (s : string) : bool :=
  match s with
  | EmptyString => true
  | String c s' => negb (sep c) && no_sep sep s'
  end.

Definition is_token (sep : ascii -> bool) (t : string) : Prop :=
  t <> EmptyString /\ no_sep sep t = true.

(** The separators of the extractor: whitespace and the comma. *)
Definition is_separator (c : ascii) : bool := isspace c || is_comma c.


(** The Range of the data model: when both bounds are present the lower one
    is at most the upper one. *)
Definition proper_range (min_value max_value : option float) : Prop :=
  match min_value, max_value with
  | Some lo, Some hi => Float64.le lo hi = true
  | _, _ => True
  end.

(** The truth value of [args.command]. *)
Definition truthy (s : option string) : bool :=
  match s with
  | Some (String _ _) => true
  | _ => false
  end.

(** The ways in which an iteration obtains no sample. *)
Inductive acquisition_failure (args : Namespace) (os : OS) : Prop :=
| command_exit_nonzero cmd p :
    command args = Some cmd -> truthy (Some cmd) = true ->
    run os cmd = Ok p -> returncode p <> 0%Z ->
    acquisition_failure args os
| command_no_number cmd p :
    command args = Some cmd -> truthy (Some cmd) = true ->
    run os cmd = Ok p -> returncode p = 0%Z ->
    extract_value (stdout p) = None ->
    acquisition_failure args os
| file_not_found path :
    truthy (command args) = false -> file args = Some path ->
    read_text os path = Raise FileNotFoundError ->
    acquisition_failure args os
| file_io_error path exc :
    truthy (command args) = false -> file args = Some path ->
    read_text os path = Raise (OSError exc) ->
    acquisition_failure args os
| file_no_number path content :
    truthy (command args) = false -> file args = Some path ->
    read_text os path = Ok content ->
    extract_value content = None ->
    acquisition_failure args os.

(** The sample that an iteration obtains, if any. *)
Definition obtained (args : Namespace) (os : OS) : list float :=
  match outcome (acquire args os) with
  | Ok (Some v) => [v]
  | _ => []
  end.

Definition samples (args : Namespace) (world : list OS) : list float :=
  flat_map (obtained args) world.

(** *** Example configurations *)

(** [--file value.txt --min 0 --max 100 --threshold 0.3] *)
Definition example_args : Namespace :=
  {| command := None; file := Some "value.txt"; interval := lit "1.0";
     min_value := Some (lit "0"); max_value := Some (lit "100");
     threshold := lit "0.3" |}.

(** An operating system where every command prints [content] and every
    file holds [content]. *)
Definition holding (content : string) : OS :=
  {| run := fun _ =>
       Ok {| returncode := 0; stdout := content; stderr := EmptyString |};
     read_text := fun _ => Ok content |}.

(** An operating system where the file is missing and commands fail. *)
Definition failing : OS :=
  {| run := fun _ =>
       Ok {| returncode := 1; stdout := EmptyString; stderr := "failed" |};
     read_text := fun _ => Raise FileNotFoundError |}.

(** ** Notions used by the further properties *)

(** Every character of [s] satisfies [p]. *)
Fixpoint string_forall (p : ascii -> bool) (s : string) : bool :=
  match s with
  | EmptyString => true
  | String c s' => p c && string_forall p s'
  end.

(** Splitting a text on separators, as the contract of the extractor words
    it: [splits sep text tokens] holds when [text] is made of the [tokens]
    in this order, each a non-empty run without a separator, with at least
    one separator between two of them and any number of separators in front
    and at the end. *)
Inductive splits (sep : ascii -> bool) : string -> list string -> Prop :=
| splits_nil (s : string) :
    string_forall sep s = true -> splits sep s []
| splits_end (s t : string) :
    string_forall sep s = true -> is_token sep t ->
    splits sep (s ++ t) [t]
| splits_cons (s t : string) (d : ascii) (rest : string)
    (tokens : list string) :
    string_forall sep s = true -> is_token sep t -> sep d = true ->
    splits sep rest tokens ->
    splits sep (s ++ t ++ String d rest) (t :: tokens).

(** Kinds of events, and how many events of a kind a trace holds. *)
Definition is_run (ev : event) : bool :=
  match ev with Run _ => true | _ => false end.

Definition is_read (ev : event) : bool :=
  match ev with ReadText _ => true | _ => false end.

Definition is_stderr (ev : event) : bool :=
  match ev with StderrWrite _ => true | _ => false end.


Definition count (p : event -> bool) (log : list event) : nat :=
  List.length (filter p log).

(** The old and the new value of every printed line of a trace. *)
Fixpoint changes (log : list event) : list (float * float) :=
  match log with
  | [] => []
  | PrintChange old new :: rest => (old, new) :: changes rest
  | _ :: rest => changes rest
  end.

(** What one alert leaves in the trace (lines 176-181). *)
Definition alert_events (change : float * float) : list event :=
  [Beep; PrintChange (fst change) (snd change)].

(** An operating system where neither the output of a command nor the file
    is valid text: decoding raises. *)
Definition undecodable : OS :=
  {| run := fun _ => Raise UnicodeDecodeError;
     read_text := fun _ => Raise UnicodeDecodeError |}.

(** The numbers that binary64 has: a finite one has a mantissa of at most
    53 bits, of exactly 53 above the least exponent, and an exponent in the
    range of the format. *)
Definition valid_float (x : float) : bool :=
  valid_binary Float64.prec Float64.emax x.

(** [parse_arguments] leaves these when only [--file value.txt] is given
    (lines 46-74): the interval 1.0, no bounds, the threshold 0.0. *)
Definition default_args : Namespace :=
  {| command := None; file := Some "value.txt"; interval := lit "1.0";
     min_value := None; max_value := None; threshold := lit "0.0" |}.

(** One bound is at least as wide as another: it is absent, or both are
    present and it lies no further in. *)
Definition lower_bound_wider (wide narrow : option float) : Prop :=
  match wide, narrow with
  | None, _ => True
  | Some lo', Some lo => Float64.le lo' lo = true
  | Some _, None => False
  end.

Definition upper_bound_wider (wide narrow : option float) : Prop :=
  match wide, narrow with
  | None, _ => True
  | Some hi', Some hi => Float64.le hi hi' = true
  | Some _, None => False
  end.

(** [lo <= value] for a present lower bound and [value <= hi] for a
    present upper bound; a bound that is a NaN holds of every value. *)
Definition above (value : float) (lower : option float) : bool :=
  match lower with
  | Some lo => Float64.is_nan lo || Float64.le lo value
  | None => true
  end.

Definition below (value : float) (upper : option float) : bool :=
  match upper with
  | Some hi => Float64.is_nan hi || Float64.le value hi
  | None => true
  end.

(** The characters that a float literal can hold: digits, the signs, the
    point, the underscore, the letters of the exponent and of [inf],
    [infinity] and [nan] in either case, and surrounding whitespace. *)
Fixpoint char_in (c : ascii) (s : string) : bool :=
  match s with
  | EmptyString => false
  | String d s' => Ascii.eqb c d || char_in c s'
  end.

Definition float_char (c : ascii) : bool :=
  is_digit c || isspace c || char_in c "+-._aefintyAEFINTY".

(** The numbers other than the zeros, a NaN apart. *)
Inductive nonzero : float -> Prop :=
| nonzero_finite s m e : nonzero (S754_finite s m e)
| nonzero_infinity s : nonzero (S754_infinity s).

(** The intervals for which [time.sleep] returns: the numbers from zero to
    9e9 seconds. Below zero and for a NaN the call raises [ValueError], and
    for an infinity or a number too large for its clock [OverflowError];
    [--interval] accepts all of these. *)
Definition sleep_accepts (seconds : float) : bool :=
  Float64.le Float64.zero seconds && Float64.le seconds (lit "9e9").

(** * Properties *)

(** ** Comparison of binary64 numbers *)

Module Float64Facts.

Ltac by_compare :=
  repeat match goal with
    | H : context [Z.compare ?a ?b] |- _ => destruct (Z.compare_spec a b)
    | |- context [Z.compare ?a ?b] => destruct (Z.compare_spec a b)
    | H : context [Pos.compare ?a ?b] |- _ => destruct (Pos.compare_spec a b)
    | |- context [Pos.compare ?a ?b] => destruct (Pos.compare_spec a b)
    end;
  simpl in *; try congruence; try lia.

Ltac unfold_cont :=
  repeat match goal with
    | H : context [Pos.compare_cont Eq ?a ?b] |- _ =>
        change (Pos.compare_cont Eq a b) with (Pos.compare a b) in H
    | |- context [Pos.compare_cont Eq ?a ?b] =>
        change (Pos.compare_cont Eq a b) with (Pos.compare a b)
    end.

Lemma compare_nan_r (x : float) : SFcompare x S754_nan = None.
Proof. destruct x; reflexivity. Qed.

Lemma compare_total (x y : float) :
  Float64.is_nan x = false -> Float64.is_nan y = false ->
  exists c, SFcompare x y = Some c.
Proof.
  destruct x, y; simpl; intros; try discriminate; eauto.
Qed.

(** Swapping the operands reverses the comparison. *)
Lemma compare_swap (x y : float) :
  SFcompare y x = option_map CompOpp (SFcompare x y).
Proof.
  destruct x as [sx|sx| |sx mx ex], y as [sy|sy| |sy my ey]; simpl;
    try reflexivity;
    try (destruct sx; reflexivity); try (destruct sy; reflexivity);
    try (destruct sx, sy; reflexivity).
  destruct sx, sy; simpl; try reflexivity; unfold_cont;
    f_equal; by_compare.
Qed.

(** Numbers that compare equal compare alike with every third one. *)
Lemma compare_eq_left (x y z : float) :
  SFcompare x y = Some Eq -> SFcompare x z = SFcompare y z.
Proof.
  destruct x as [sx|sx| |sx mx ex], y as [sy|sy| |sy my ey]; simpl;
    try discriminate;
    try (destruct sx; discriminate); try (destruct sy; discriminate).
  - destruct z; reflexivity.
  - destruct sx, sy; try discriminate; reflexivity.
  - destruct sx, sy; try discriminate; unfold_cont; intros H;
      destruct (Z.compare_spec ex ey); try discriminate;
      destruct (Pos.compare_spec mx my); try discriminate;
      subst; reflexivity.
Qed.

(** [x >= y] and [y > z] give [x > z]. *)
Lemma compare_ge_gt (x y z : float) (c : comparison) :
  SFcompare x y = Some c -> c <> Lt -> SFcompare y z = Some Gt ->
  SFcompare x z = Some Gt.
Proof.
  destruct x as [sx|sx| |sx mx ex], y as [sy|sy| |sy my ey],
           z as [sz|sz| |sz mz ez]; simpl; intros H Hc H';
    try discriminate;
    try (destruct sx); try (destruct sy); try (destruct sz);
    simpl in *; try congruence; try reflexivity;
    unfold_cont; injection H as H; injection H' as H'; f_equal;
    by_compare.
Qed.

Lemma gt_false_of_le (x y : float) :
  Float64.le x y = true -> Float64.gt x y = false.
Proof.
  unfold Float64.le, Float64.gt.
  destruct (SFcompare x y) as [[]|]; congruence.
Qed.

Lemma lt_false_of_ge (x y : float) :
  Float64.le y x = true -> Float64.lt x y = false.
Proof.
  unfold Float64.le, Float64.lt. rewrite (compare_swap x y).
  destruct (SFcompare x y) as [[]|]; simpl; congruence.
Qed.

(** [x - x] is [+0.0] for a number and a NaN for an infinity or a NaN. *)
Lemma sub_diag (x : float) :
  Float64.sub x x = Float64.zero \/ Float64.sub x x = Float64.nan.
Proof.
  destruct x as [s|s| |s m e]; simpl.
  - left. destruct s; reflexivity.
  - right. destruct s; reflexivity.
  - right. reflexivity.
  - left. unfold Float64.sub, SFsub. rewrite Z.sub_diag. reflexivity.
Qed.

(** A threshold that is not negative is not below the difference of a
    value with itself. *)
Lemma same_value_within (x t : float) :
  Float64.lt t Float64.zero = false ->
  Float64.gt (Float64.abs (Float64.sub x x)) t = false.
Proof.
  intros Ht. destruct (sub_diag x) as [-> | ->].
  - unfold Float64.gt, Float64.lt, Float64.abs, Float64.zero in *.
    destruct t as [s|s| |s m e]; try destruct s; simpl in *;
      congruence.
  - reflexivity.
Qed.

Lemma nonneg_not_negative (t : float) :
  Float64.le Float64.zero t = true -> Float64.lt t Float64.zero = false.
Proof. apply lt_false_of_ge. Qed.

End Float64Facts.

(** ** The range check *)

Lemma value_in_range_unbounded (value : float) :
  value_in_range value None None = true.
Proof. reflexivity. Qed.

(** A value equal to the lower bound passes the test of the lower bound. *)
Lemma value_in_range_at_min (value lo : float) (max_value : option float) :
  Float64.eqb value lo = true ->
  value_in_range value (Some lo) max_value = value_in_range value None max_value.
Proof.
  unfold value_in_range, Float64.eqb, Float64.lt.
  destruct (SFcompare value lo) as [[]|]; congruence.
Qed.

(** A value equal to the upper bound passes the test of the upper bound. *)
Lemma value_in_range_at_max (value hi : float) (min_value : option float) :
  Float64.eqb value hi = true ->
  value_in_range value min_value (Some hi) = value_in_range value min_value None.
Proof.
  unfold value_in_range, Float64.eqb, Float64.gt.
  destruct (SFcompare value hi) as [[]|]; congruence.
Qed.

Lemma value_in_range_boundary (value b : float)
  (min_value max_value : option float) :
  proper_range min_value max_value ->
  min_value = Some b \/ max_value = Some b ->
  Float64.eqb value b = true ->
  value_in_range value min_value max_value = true.
Proof.
  intros Hr [-> | ->] Heq.
  - rewrite value_in_range_at_min by exact Heq.
    destruct max_value as [hi|]; [|reflexivity].
    unfold value_in_range, Float64.gt.
    unfold Float64.eqb in Heq.
    destruct (SFcompare value b) as [[]|] eqn:E; try discriminate.
    rewrite (Float64Facts.compare_eq_left _ _ hi E).
    apply Float64Facts.gt_false_of_le in Hr. unfold Float64.gt in Hr.
    rewrite Hr. reflexivity.
  - rewrite value_in_range_at_max by exact Heq.
    destruct min_value as [lo|]; [|reflexivity].
    unfold value_in_range, Float64.lt.
    unfold Float64.eqb in Heq.
    destruct (SFcompare value b) as [[]|] eqn:E; try discriminate.
    rewrite (Float64Facts.compare_eq_left _ _ lo E).
    apply Float64Facts.lt_false_of_ge in Hr. unfold Float64.lt in Hr.
    rewrite Hr. reflexivity.
Qed.

(** C4, as stated, fails: the value 5 equals the lower bound of the range
    with the lower bound 5 and the upper bound 3, and is not in range. *)
Lemma value_at_min_of_inverted_range :
  Float64.eqb (lit "5") (lit "5") = true /\
  value_in_range (lit "5") (Some (lit "5")) (Some (lit "3")) = false.
Proof. split; vm_compute; reflexivity. Qed.

(** C4, amended. [value_in_range] is false when the lower bound is present
    and the value is below it, false when the upper bound is present and
    the value is above it, and true otherwise; so it is true when both
    bounds are absent. A value equal to a present bound passes the test of
    that bound, both bounds being inclusive, and so is in range when the
    range is a proper one. *)
Theorem value_in_range_spec (value : float)
  (min_value max_value : option float) :
  (forall lo, min_value = Some lo -> Float64.lt value lo = true ->
     value_in_range value min_value max_value = false) /\
  (forall hi, max_value = Some hi -> Float64.gt value hi = true ->
     value_in_range value min_value max_value = false) /\
  ((forall lo, min_value = Some lo -> Float64.lt value lo = false) ->
   (forall hi, max_value = Some hi -> Float64.gt value hi = false) ->
     value_in_range value min_value max_value = true) /\
  (min_value = None -> max_value = None ->
     value_in_range value min_value max_value = true) /\
  (forall lo, min_value = Some lo -> Float64.eqb value lo = true ->
     value_in_range value min_value max_value
     = value_in_range value None max_value) /\
  (forall hi, max_value = Some hi -> Float64.eqb value hi = true ->
     value_in_range value min_value max_value
     = value_in_range value min_value None) /\
  (proper_range min_value max_value ->
   forall b, min_value = Some b \/ max_value = Some b ->
     Float64.eqb value b = true ->
     value_in_range value min_value max_value = true).
Proof.
  split; [|split; [|split; [|split; [|split; [|split]]]]].
  - intros lo -> H. unfold value_in_range. rewrite H. reflexivity.
  - intros hi -> H. unfold value_in_range. rewrite H.
    destruct min_value as [lo|]; [destruct (Float64.lt value lo)|];
      reflexivity.
  - intros Hlo Hhi. unfold value_in_range.
    destruct min_value as [lo|]; [rewrite (Hlo lo eq_refl)|];
      (destruct max_value as [hi|]; [rewrite (Hhi hi eq_refl)|]);
      reflexivity.
  - intros -> ->. reflexivity.
  - intros lo -> Heq. now apply value_in_range_at_min.
  - intros hi -> Heq. now apply value_in_range_at_max.
  - intros Hr b Hb Heq. exact (value_in_range_boundary _ b _ _ Hr Hb Heq).
Qed.

Example value_in_range_examples :
  value_in_range (lit "5") None None = true /\
  value_in_range (lit "5") (Some (lit "10")) None = false /\
  value_in_range (lit "5") None (Some (lit "3")) = false /\
  value_in_range (lit "5") (Some (lit "3")) (Some (lit "10")) = true /\
  value_in_range (lit "3") (Some (lit "3")) (Some (lit "10")) = true /\
  value_in_range (lit "10") (Some (lit "3")) (Some (lit "10")) = true.
Proof. repeat split; vm_compute; reflexivity. Qed.

Lemma value_in_range_spec_witness :
  value_in_range (lit "5") (Some (lit "10")) None = false /\
  value_in_range (lit "5") None (Some (lit "3")) = false /\
  value_in_range (lit "5") (Some (lit "3")) (Some (lit "10")) = true /\
  value_in_range (lit "5") None None = true /\
  value_in_range (lit "3.0") (Some (lit "3")) (Some (lit "10")) = true.
Proof.
  split; [|split; [|split; [|split]]].
  - apply (proj1 (value_in_range_spec _ (Some (lit "10")) None)
             (lit "10") eq_refl).
    vm_compute; reflexivity.
  - apply (proj1 (proj2 (value_in_range_spec _ None (Some (lit "3"))))
             (lit "3") eq_refl).
    vm_compute; reflexivity.
  - apply (proj1 (proj2 (proj2
             (value_in_range_spec _ (Some (lit "3")) (Some (lit "10")))))).
    + intros lo H; injection H as <-; vm_compute; reflexivity.
    + intros hi H; injection H as <-; vm_compute; reflexivity.
  - apply (proj1 (proj2 (proj2 (proj2
             (value_in_range_spec (lit "5") None None)))));
      reflexivity.
  - apply (proj2 (proj2 (proj2 (proj2 (proj2 (proj2
             (value_in_range_spec _ (Some (lit "3")) (Some (lit "10"))))))))
             ltac:(vm_compute; reflexivity) (lit "3")).
    + left; reflexivity.
    + vm_compute; reflexivity.
Defined.

(** *** Inverted ranges *)

(** C8, amended. An inverted range rejects every value that is not a NaN:
    such a value, when it is not below the lower bound, is above the upper
    one. *)
Theorem inverted_range_rejects_numbers (value lo hi : float) :
  Float64.is_nan value = false ->
  Float64.gt lo hi = true ->
  value_in_range value (Some lo) (Some hi) = false.
Proof.
  intros Hv Hinv. unfold Float64.gt in Hinv.
  destruct (SFcompare lo hi) as [[]|] eqn:E; try discriminate.
  assert (Hlo : Float64.is_nan lo = false)
    by (destruct lo; [reflexivity..|discriminate|reflexivity]).
  destruct (Float64Facts.compare_total value lo Hv Hlo) as [c Hc].
  unfold value_in_range, Float64.lt, Float64.gt. rewrite Hc.
  destruct c; try reflexivity.
  - rewrite (Float64Facts.compare_ge_gt value lo hi Eq Hc ltac:(discriminate) E).
    reflexivity.
  - rewrite (Float64Facts.compare_ge_gt value lo hi Gt Hc ltac:(discriminate) E).
    reflexivity.
Qed.

Lemma inverted_range_rejects_numbers_witness :
  Float64.gt (lit "10") (lit "5") = true /\
  value_in_range (lit "7") (Some (lit "10")) (Some (lit "5")) = false.
Proof.
  split; [vm_compute; reflexivity|].
  apply inverted_range_rejects_numbers; vm_compute; reflexivity.
Defined.

(** A NaN passes every range, since both of its comparisons are false. *)
Lemma value_in_range_nan (min_value max_value : option float) :
  value_in_range Float64.nan min_value max_value = true.
Proof. destruct min_value, max_value; reflexivity. Qed.

(** C8, as stated, fails. The token [nan] is a float literal, so a source
    can yield a NaN; with the inverted range of lower bound 10 and upper
    bound 5 the range check lets it pass, and the loop takes it as its baseline. *)
Lemma inverted_range_admits_nan :
  extract_value "nan" = Some Float64.nan /\
  Float64.gt (lit "10") (lit "5") = true /\
  value_in_range Float64.nan (Some (lit "10")) (Some (lit "5")) = true /\
  forall path cmd_reply,
    outcome
      (monitor
         {| command := None; file := Some path; interval := lit "1.0";
            min_value := Some (lit "10"); max_value := Some (lit "5");
            threshold := lit "0.0" |}
         [ {| run := cmd_reply; read_text := fun _ => Ok "nan" |} ])
    = Ok (Some Float64.nan).
Proof.
  repeat split; vm_compute; reflexivity.
Qed.

(** ** The Value Extractor *)

Section Splitting.

Variable sep : ascii -> bool.

Lemma no_sep_app (a b : string) :
  no_sep sep (a ++ b) = no_sep sep a && no_sep sep b.
Proof.
  induction a as [|c a IH]; simpl; [reflexivity|].
  rewrite IH. apply andb_assoc.
Qed.

Lemma app_nonempty (a : string) (c : ascii) :
  a ++ String c EmptyString <> EmptyString.
Proof. destruct a; discriminate. Qed.

Lemma app_assoc_char (a b : string) (c : ascii) :
  (a ++ String c EmptyString) ++ b = a ++ String c b.
Proof. induction a as [|d a IH]; simpl; [reflexivity|]. now rewrite IH. Qed.

(** Every token is a non-empty run without a separator. *)
Lemma split_on_tokens (s cur : string) :
  no_sep sep cur = true -> Forall (is_token sep) (split_on sep cur s).
Proof.
  revert cur. induction s as [|c s IH]; intros cur Hcur; simpl.
  - destruct cur; constructor; [split; [discriminate|exact Hcur]|constructor].
  - destruct (sep c) eqn:Hc.
    + destruct cur.
      * apply IH. reflexivity.
      * constructor; [split; [discriminate|exact Hcur]|].
        apply IH. reflexivity.
    + apply IH. rewrite no_sep_app, Hcur. simpl. now rewrite Hc.
Qed.

(** A run without a separator extends the current token. *)
Lemma split_on_run (t s cur : string) :
  no_sep sep t = true ->
  split_on sep cur (t ++ s) = split_on sep (cur ++ t) s.
Proof.
  revert cur. induction t as [|c t IH]; intros cur Ht; simpl.
  - f_equal. clear. induction cur as [|d cur IH]; simpl; congruence.
  - simpl in Ht. apply andb_prop in Ht as [Hc Ht].
    apply negb_true_iff in Hc. rewrite Hc, IH by exact Ht.
    now rewrite app_assoc_char.
Qed.

(** A separator ends the current token. *)
Lemma split_on_sep (d : ascii) (s cur : string) :
  sep d = true ->
  split_on sep cur (String d s)
  = (split_on sep cur EmptyString ++ split_on sep EmptyString s)%list.
Proof. intros Hd. simpl. rewrite Hd. destruct cur; reflexivity. Qed.

(** So the tokens of [t d s], with [t] a token and [d] a separator, are
    [t] and then the tokens of [s]; and separators in front are skipped. *)
Lemma split_on_cons (t s : string) (d : ascii) :
  is_token sep t -> sep d = true ->
  split_on sep EmptyString (t ++ String d s) = t :: split_on sep EmptyString s.
Proof.
  intros [Hne Ht] Hd. rewrite split_on_run by exact Ht.
  rewrite split_on_sep by exact Hd. simpl.
  destruct t; [congruence|reflexivity].
Qed.

Lemma split_on_last (t : string) :
  is_token sep t -> split_on sep EmptyString t = [t].
Proof.
  intros [Hne Ht].
  replace t with (t ++ EmptyString) at 1
    by (clear; induction t; simpl; congruence).
  rewrite split_on_run by exact Ht. simpl.
  destruct t; [congruence|reflexivity].
Qed.

Lemma split_on_skip (d : ascii) (s : string) :
  sep d = true ->
  split_on sep EmptyString (String d s) = split_on sep EmptyString s.
Proof. intros Hd. simpl. now rewrite Hd. Qed.

End Splitting.

(** Replacing the commas by spaces and splitting on whitespace is splitting
    on whitespace and commas. *)
Lemma split_replace_comma (text cur : string) :
  split_on isspace cur (replace "," " " text)
  = split_on is_separator cur text.
Proof.
  revert cur. induction text as [|c text IH]; intros cur; simpl.
  - reflexivity.
  - unfold is_separator, is_comma.
    destruct (Ascii.eqb c ",") eqn:Hc.
    + apply Ascii.eqb_eq in Hc. subst c.
      change (isspace " ") with true. change (isspace ",") with false.
      simpl. now rewrite !IH.
    + rewrite orb_false_r. destruct (isspace c); now rewrite !IH.
Qed.

(** The loop returns the first token that [float] accepts. *)
Lemma first_float_some (tokens : list string) (x : float) :
  first_float tokens = Some x <->
  exists before token after,
    tokens = (before ++ token :: after)%list /\
    Forall (fun t => float_of_string t = None) before /\
    float_of_string token = Some x.
Proof.
  induction tokens as [|t ts IH]; simpl.
  - split; [discriminate|].
    intros (before & token & after & H & _). destruct before; discriminate.
  - destruct (float_of_string t) as [y|] eqn:Ht.
    + split.
      * intros H. injection H as ->. exists [], t, ts.
        split; [reflexivity|]. split; [constructor|exact Ht].
      * intros (before & token & after & H & Hb & Htok).
        destruct before as [|b before]; simpl in H; injection H as -> ->.
        -- congruence.
        -- inversion Hb; congruence.
    + rewrite IH. split.
      * intros (before & token & after & -> & Hb & Htok).
        exists (t :: before), token, after.
        split; [reflexivity|]. split; [constructor; assumption|exact Htok].
      * intros (before & token & after & H & Hb & Htok).
        destruct before as [|b before]; simpl in H; injection H as -> ->.
        -- congruence.
        -- inversion Hb; subst. exists before, token, after.
           split; [reflexivity|]. split; assumption.
Qed.

Lemma first_float_none (tokens : list string) :
  first_float tokens = None <->
  Forall (fun t => float_of_string t = None) tokens.
Proof.
  induction tokens as [|t ts IH]; simpl.
  - split; constructor.
  - destruct (float_of_string t) as [y|] eqn:Ht.
    + split; [discriminate|]. intros H. inversion H; congruence.
    + rewrite IH. split; [auto|]. intros H. now inversion H.
Qed.

(** *** The tokens are those of the text *)

Lemma append_empty (s : string) : s ++ EmptyString = s.
Proof. induction s as [|c s IH]; simpl; congruence. Qed.

Lemma split_on_skip_all (sep : ascii -> bool) (s x : string) :
  string_forall sep s = true ->
  split_on sep EmptyString (s ++ x) = split_on sep EmptyString x.
Proof.
  induction s as [|c s IH]; simpl; [reflexivity|].
  intros H. apply andb_prop in H as [Hc Hs]. rewrite Hc. now apply IH.
Qed.

(** A text splits in one way only, the one that [split_on] computes. *)
Lemma splits_unique (sep : ascii -> bool) (s : string) (ts : list string) :
  splits sep s ts -> ts = split_on sep EmptyString s.
Proof.
  induction 1 as [s Hs | s t Hs Ht | s t d rest ts Hs Ht Hd _ IH].
  - rewrite <- (append_empty s), (split_on_skip_all _ _ _ Hs). reflexivity.
  - rewrite (split_on_skip_all _ _ _ Hs), (split_on_last _ _ Ht).
    reflexivity.
  - rewrite (split_on_skip_all _ _ _ Hs), (split_on_cons _ _ _ _ Ht Hd).
    now rewrite IH.
Qed.

Lemma splits_skip (sep : ascii -> bool) (d : ascii) (s : string)
  (ts : list string) :
  sep d = true -> splits sep s ts -> splits sep (String d s) ts.
Proof.
  intros Hd [s0 Hs | s0 t Hs Ht | s0 t d' rest ts' Hs Ht Hd' Hrest].
  - apply splits_nil. simpl. now rewrite Hd.
  - change (String d (s0 ++ t)) with (String d s0 ++ t).
    apply splits_end; [simpl; now rewrite Hd|exact Ht].
  - change (String d (s0 ++ t ++ String d' rest))
      with (String d s0 ++ t ++ String d' rest).
    apply splits_cons; try assumption. simpl. now rewrite Hd.
Qed.

(** The longest run without a separator at the front of a text. *)
Lemma run_decompose (sep : ascii -> bool) (s : string) :
  exists t r,
    s = t ++ r /\ no_sep sep t = true /\
    String.length r <= String.length s /\
    (r = EmptyString \/ exists d r', r = String d r' /\ sep d = true).
Proof.
  induction s as [|c s IH].
  - exists EmptyString, EmptyString. repeat split; auto.
  - destruct (sep c) eqn:Hc.
    + exists EmptyString, (String c s). repeat split; auto.
      right. now exists c, s.
    + destruct IH as (t & r & E & Ht & Hlen & Hr).
      exists (String c t), r. simpl. rewrite Hc, Ht, <- E.
      repeat split; auto.
Qed.

Lemma splits_split_on (sep : ascii -> bool) (n : nat) : forall s : string,
  String.length s <= n -> splits sep s (split_on sep EmptyString s).
Proof.
  induction n as [|n IH]; intros s Hlen; destruct s as [|c s];
    simpl in Hlen; try lia; try (now apply splits_nil).
  destruct (sep c) eqn:Hc.
  - rewrite (split_on_skip _ _ _ Hc). apply splits_skip; [exact Hc|].
    apply IH. lia.
  - destruct (run_decompose sep s) as (t & r & E & Ht & Hr & Hcase).
    assert (Htok : is_token sep (String c t)).
    { split; [discriminate|]. simpl. now rewrite Hc, Ht. }
    destruct Hcase as [-> | (d & r' & -> & Hd)].
    + rewrite append_empty in E. subst s.
      rewrite (split_on_last _ _ Htok).
      exact (splits_end sep EmptyString (String c t) eq_refl Htok).
    + subst s. change (String c (t ++ String d r'))
        with (String c t ++ String d r').
      rewrite (split_on_cons _ _ _ _ Htok Hd).
      apply (splits_cons sep EmptyString (String c t) d r' _ eq_refl Htok Hd).
      apply IH. simpl in Hr. lia.
Qed.

(** C2. The tokens of a text are what splitting it on whitespace and
    commas gives: the text is made of these tokens in this order, non-empty
    runs without a separator, with separators between them, and of nothing
    else, and no other list of tokens splits it. The extractor returns [x]
    exactly when some token parses to [x] and no token before it parses,
    and it finds nothing exactly when no token parses. *)
Theorem extract_value_spec (text : string) :
  tokens_of text = split_on is_separator EmptyString text /\
  Forall (is_token is_separator) (tokens_of text) /\
  (forall x,
     extract_value text = Some x <->
     exists before token after,
       tokens_of text = (before ++ token :: after)%list /\
       Forall (fun t => float_of_string t = None) before /\
       float_of_string token = Some x) /\
  (extract_value text = None <->
   Forall (fun t => float_of_string t = None) (tokens_of text)) /\
  splits is_separator text (tokens_of text) /\
  (forall tokens, splits is_separator text tokens -> tokens = tokens_of text).
Proof.
  assert (E : tokens_of text = split_on is_separator EmptyString text)
    by apply split_replace_comma.
  split; [exact E|]. split; [|split; [|split; [|split]]].
  - rewrite E. now apply split_on_tokens.
  - intros x. apply first_float_some.
  - apply first_float_none.
  - rewrite E. exact (splits_split_on _ _ text (le_n _)).
  - intros tokens H. rewrite E. now apply splits_unique.
Qed.

Lemma extract_value_spec_witness :
  extract_value "load 0.75, 1.25" = Some (lit "0.75").
Proof.
  apply (proj1 (proj2 (proj2 (extract_value_spec "load 0.75, 1.25")))).
  exists ["load"], "0.75", ["1.25"].
  split; [reflexivity|]. split; [|vm_compute; reflexivity].
  constructor; [vm_compute; reflexivity|constructor].
Defined.

(** The two readers hand the text they obtained to this extractor. *)
Lemma fetch_value_from_command_extracts (os : OS) (cmd : string)
  (p : CompletedProcess) :
  run os cmd = Ok p -> returncode p = 0%Z ->
  outcome (fetch_value_from_command os cmd) = Ok (extract_value (stdout p)).
Proof.
  intros Hr Hc. unfold fetch_value_from_command, extract_value.
  rewrite Hr, Hc. simpl.
  destruct (first_float (tokens_of (stdout p))); reflexivity.
Qed.

Lemma fetch_value_from_file_extracts (os : OS) (path content : string) :
  read_text os path = Ok content ->
  outcome (fetch_value_from_file os (Some path)) = Ok (extract_value content).
Proof.
  intros Hr. unfold fetch_value_from_file, extract_value.
  rewrite Hr. simpl.
  destruct (first_float (tokens_of content)); reflexivity.
Qed.

(** What [float] drops around a literal and what it does not: the code
    point 28 separates tokens for [split] but is no whitespace to [float]. *)
Example float_of_string_whitespace :
  float_of_string " 0.3 " = Some (lit "0.3") /\
  float_of_string (String (ascii_of_N 28) "0.3") = None /\
  tokens_of (String (ascii_of_N 28) "0.3") = ["0.3"].
Proof. repeat split; vm_compute; reflexivity. Qed.

(** *** The two example texts *)

Example tokens_of_cpu_line :
  tokens_of "cpu: 42.5%, mem 10" = ["cpu:"; "42.5%"; "mem"; "10"].
Proof. reflexivity. Qed.

(** [42.5%] as a whole is no float literal, though [42.5] is one. *)
Example float_of_percent_token :
  float_of_string "42.5%" = None /\
  float_of_string "42.5" = Some (Float64.of_decimal false 425 (-1)).
Proof. split; vm_compute; reflexivity. Qed.

(** C3, as stated, fails: the extractor does not return 42.5 on the first
    example text. *)
Lemma extract_value_cpu_line_not_42_5 :
  extract_value "cpu: 42.5%, mem 10" <> Some (lit "42.5").
Proof. vm_compute. discriminate. Qed.

(** C3, amended. On ["cpu: 42.5%, mem 10"] the extractor returns 10.0, the
    value of the first token that is a float literal as a whole, and on
    ["no numbers here"] it finds nothing. *)
Theorem extract_value_examples :
  extract_value "cpu: 42.5%, mem 10" = Some (lit "10") /\
  lit "10" = S754_finite false 5629499534213120 (-49) /\
  extract_value "no numbers here" = None.
Proof. repeat split; vm_compute; reflexivity. Qed.

(** ** The Change Detector *)

Lemma bind_ok {A B} (log : list event) (a : A) (k : A -> Eff B) :
  bind (log, Ok a) k = ((log ++ trace (k a))%list, outcome (k a)).
Proof. unfold bind, trace, outcome. destruct (k a). reflexivity. Qed.

Lemma bind_raise {A B} (log : list event) (e : exn) (k : A -> Eff B) :
  bind (log, Raise e) k = (log, Raise e).
Proof. reflexivity. Qed.

Lemma eff_eta {A} (c : Eff A) : c = (trace c, outcome c).
Proof. destruct c; reflexivity. Qed.

Lemma bind_ret_l {A B} (a : A) (k : A -> Eff B) : bind (ret a) k = k a.
Proof. unfold bind, ret. destruct (k a). reflexivity. Qed.

Lemma bind_silent {A B} (a : A) (k : A -> Eff B) : bind ([], Ok a) k = k a.
Proof. exact (bind_ret_l a k). Qed.

Lemma bind_ext {A B} (c : Eff A) (k k' : A -> Eff B) :
  (forall a, k a = k' a) -> bind c k = bind c k'.
Proof.
  intros H. destruct c as [log [a|e]]; simpl; [rewrite H|]; reflexivity.
Qed.

Lemma bind_assoc {A B C} (c : Eff A) (k : A -> Eff B) (h : B -> Eff C) :
  bind (bind c k) h = bind c (fun a => bind (k a) h).
Proof.
  destruct c as [log [a|e]]; simpl; [|reflexivity].
  destruct (k a) as [log1 [b|e]]; simpl; [|reflexivity].
  destruct (h b) as [log2 r]. now rewrite app_assoc.
Qed.

(** The four cases of the transition. *)
Lemma change_detector_out_of_range args last v :
  value_in_range v (min_value args) (max_value args) = false ->
  change_detector args last v = ([], Ok None).
Proof. intros H. unfold change_detector. rewrite H. reflexivity. Qed.

Lemma change_detector_first args v :
  value_in_range v (min_value args) (max_value args) = true ->
  change_detector args None v = ([], Ok (Some v)).
Proof. intros H. unfold change_detector. rewrite H. reflexivity. Qed.

Lemma change_detector_alert args b v :
  value_in_range v (min_value args) (max_value args) = true ->
  Float64.gt (Float64.abs (Float64.sub v b)) (threshold args) = true ->
  change_detector args (Some b) v = ([Beep; PrintChange b v], Ok (Some v)).
Proof.
  intros H Hd. unfold change_detector. rewrite H, Hd. reflexivity.
Qed.

Lemma change_detector_quiet args b v :
  value_in_range v (min_value args) (max_value args) = true ->
  Float64.gt (Float64.abs (Float64.sub v b)) (threshold args) = false ->
  change_detector args (Some b) v = ([], Ok (Some b)).
Proof.
  intros H Hd. unfold change_detector. rewrite H, Hd. reflexivity.
Qed.

(** The detector raises nothing, and all it emits are alerts. *)
Lemma change_detector_returns args last v :
  exists last', outcome (change_detector args last v) = Ok last'.
Proof.
  unfold change_detector.
  destruct (value_in_range v (min_value args) (max_value args)); simpl;
    [|exists None; reflexivity].
  destruct last as [b|]; [|exists (Some v); reflexivity].
  destruct (Float64.gt _ _); [exists (Some v)|exists (Some b)]; reflexivity.
Qed.

Lemma change_detector_trace_alerts args last v :
  alerts (trace (change_detector args last v))
  = trace (change_detector args last v).
Proof.
  unfold change_detector.
  destruct (value_in_range v (min_value args) (max_value args)); simpl;
    [|reflexivity].
  destruct last as [b|]; [|reflexivity].
  destruct (Float64.gt _ _); reflexivity.
Qed.

(** One iteration that obtained the sample [v] runs the detector on it and
    then sleeps. *)
Lemma monitor_body_sample args os last log v :
  acquire args os = (log, Ok (Some v)) ->
  monitor_body args os last
  = ((log ++ trace (change_detector args last v) ++ [Sleep (interval args)])%list,
     outcome (change_detector args last v)).
Proof.
  intros H. unfold monitor_body. rewrite H, bind_ok. cbv beta iota.
  destruct (change_detector_returns args last v) as [last' Hl].
  destruct (change_detector args last v) as [tr r]. simpl in Hl. subst r.
  reflexivity.
Qed.

(** One iteration that obtained no sample only sleeps. *)
Lemma monitor_body_no_sample args os last log :
  acquire args os = (log, Ok None) ->
  monitor_body args os last
  = ((log ++ [Sleep (interval args)])%list, Ok last).
Proof. intros H. unfold monitor_body. rewrite H. reflexivity. Qed.

Lemma monitor_body_raise args os last log e :
  acquire args os = (log, Raise e) ->
  monitor_body args os last = (log, Raise e).
Proof. intros H. unfold monitor_body. rewrite H. reflexivity. Qed.

(** C1. On an obtained sample [v] the transition is: out of range, the
    state becomes [None] without an alert; else with no baseline, the state
    becomes [Some v] without an alert; else with the baseline [b], if
    [abs (v - b) > threshold] the alert fires with old [b] and new [v] and
    the state becomes [Some v], and otherwise nothing fires and the state
    stays [Some b]. The loop runs this transition in the iterations that
    obtained a sample, and in no other. *)
Theorem change_detector_transition args (last : option float) (v : float) :
  (value_in_range v (min_value args) (max_value args) = false ->
     change_detector args last v = ([], Ok None)) /\
  (value_in_range v (min_value args) (max_value args) = true ->
     last = None ->
     change_detector args last v = ([], Ok (Some v))) /\
  (forall b,
     value_in_range v (min_value args) (max_value args) = true ->
     last = Some b ->
     Float64.gt (Float64.abs (Float64.sub v b)) (threshold args) = true ->
     change_detector args last v
     = ([Beep; PrintChange b v], Ok (Some v))) /\
  (forall b,
     value_in_range v (min_value args) (max_value args) = true ->
     last = Some b ->
     Float64.gt (Float64.abs (Float64.sub v b)) (threshold args) = false ->
     change_detector args last v = ([], Ok (Some b))) /\
  (forall os log,
     acquire args os = (log, Ok (Some v)) ->
     monitor_body args os last
     = ((log ++ trace (change_detector args last v)
             ++ [Sleep (interval args)])%list,
        outcome (change_detector args last v))) /\
  (forall os log,
     acquire args os = (log, Ok None) ->
     monitor_body args os last
     = ((log ++ [Sleep (interval args)])%list, Ok last)).
Proof.
  split; [|split; [|split; [|split; [|split]]]].
  - apply change_detector_out_of_range.
  - intros H ->. now apply change_detector_first.
  - intros b H ->. now apply change_detector_alert.
  - intros b H ->. now apply change_detector_quiet.
  - intros os log. apply monitor_body_sample.
  - intros os log. apply monitor_body_no_sample.
Qed.

Lemma change_detector_transition_witness :
  change_detector example_args (Some (lit "10")) (lit "200") = ([], Ok None) /\
  change_detector example_args None (lit "10") = ([], Ok (Some (lit "10"))) /\
  change_detector example_args (Some (lit "10")) (lit "10.4")
  = ([Beep; PrintChange (lit "10") (lit "10.4")], Ok (Some (lit "10.4"))) /\
  change_detector example_args (Some (lit "10")) (lit "10.05")
  = ([], Ok (Some (lit "10"))) /\
  monitor_body example_args (holding "10.4") (Some (lit "10"))
  = ([ReadText "value.txt"; Beep; PrintChange (lit "10") (lit "10.4");
      Sleep (lit "1.0")], Ok (Some (lit "10.4"))) /\
  monitor_body example_args (holding "n/a") (Some (lit "10"))
  = ([ReadText "value.txt"; StderrWrite (NoNumberInFile "value.txt");
      Sleep (lit "1.0")], Ok (Some (lit "10"))).
Proof.
  split; [|split; [|split; [|split; [|split]]]].
  - apply (proj1 (change_detector_transition example_args _ (lit "200"))).
    vm_compute; reflexivity.
  - apply (proj1 (proj2 (change_detector_transition example_args None _)));
      [vm_compute|]; reflexivity.
  - apply (proj1 (proj2 (proj2
      (change_detector_transition example_args (Some (lit "10")) _))));
      [vm_compute| |vm_compute]; reflexivity.
  - apply (proj1 (proj2 (proj2 (proj2
      (change_detector_transition example_args (Some (lit "10")) _)))));
      [vm_compute| |vm_compute]; reflexivity.
  - rewrite (proj1 (proj2 (proj2 (proj2 (proj2
      (change_detector_transition example_args (Some (lit "10")) (lit "10.4"))))))
      (holding "10.4") [ReadText "value.txt"]);
      vm_compute; reflexivity.
  - apply (proj2 (proj2 (proj2 (proj2 (proj2
      (change_detector_transition example_args (Some (lit "10")) (lit "10"))))))
      (holding "n/a")
      [ReadText "value.txt"; StderrWrite (NoNumberInFile "value.txt")]).
    vm_compute; reflexivity.
Defined.

(** *** Runs of the detector *)

Lemma feed_cons args last v rest :
  feed args last (v :: rest)
  = (last' <- change_detector args last v ;; feed args last' rest).
Proof. reflexivity. Qed.

Lemma feed_returns args samples : forall last,
  exists last', outcome (feed args last samples) = Ok last'.
Proof.
  induction samples as [|v rest IH]; intros last; simpl.
  - exists last; reflexivity.
  - destruct (change_detector_returns args last v) as [l1 H1].
    destruct (change_detector args last v) as [tr r]. simpl in H1. subst r.
    rewrite bind_ok. simpl. apply IH.
Qed.

Lemma feed_app args a b : forall last,
  feed args last (a ++ b)
  = (last' <- feed args last a ;; feed args last' b).
Proof.
  induction a as [|v a IH]; intros last.
  - simpl app. simpl feed. now rewrite bind_ret_l.
  - change ((v :: a) ++ b)%list with (v :: (a ++ b))%list.
    rewrite !feed_cons, bind_assoc. apply bind_ext. intros l. apply IH.
Qed.

Lemma feed_trace_alerts args samples : forall last,
  alerts (trace (feed args last samples)) = trace (feed args last samples).
Proof.
  induction samples as [|v rest IH]; intros last; simpl.
  - reflexivity.
  - destruct (change_detector_returns args last v) as [l1 H1].
    pose proof (change_detector_trace_alerts args last v) as Ha.
    destruct (change_detector args last v) as [tr r]. simpl in H1, Ha.
    subst r. rewrite bind_ok. simpl. unfold alerts in *.
    rewrite filter_app, Ha. f_equal. apply IH.
Qed.

(** C5. With the threshold 0.3 and the in-range samples 10, 10.05 and 10.4,
    starting without a baseline: the first sample sets the baseline and
    fires nothing; the second differs from the baseline 10 by less than the
    threshold, fires nothing and leaves the baseline at 10; the third
    differs from the baseline 10 by more, fires the alert from 10 to 10.4
    and moves the baseline to 10.4. The whole run has this one alert. *)
Theorem feed_three_samples args :
  threshold args = lit "0.3" ->
  value_in_range (lit "10") (min_value args) (max_value args) = true ->
  value_in_range (lit "10.05") (min_value args) (max_value args) = true ->
  value_in_range (lit "10.4") (min_value args) (max_value args) = true ->
  change_detector args None (lit "10") = ([], Ok (Some (lit "10"))) /\
  change_detector args (Some (lit "10")) (lit "10.05")
  = ([], Ok (Some (lit "10"))) /\
  change_detector args (Some (lit "10")) (lit "10.4")
  = ([Beep; PrintChange (lit "10") (lit "10.4")], Ok (Some (lit "10.4"))) /\
  feed args None [lit "10"; lit "10.05"; lit "10.4"]
  = ([Beep; PrintChange (lit "10") (lit "10.4")], Ok (Some (lit "10.4"))).
Proof.
  intros Ht H1 H2 H3.
  assert (S1 := change_detector_first args _ H1).
  assert (S2 : change_detector args (Some (lit "10")) (lit "10.05")
               = ([], Ok (Some (lit "10")))).
  { apply change_detector_quiet; [exact H2|].
    rewrite Ht. vm_compute. reflexivity. }
  assert (S3 : change_detector args (Some (lit "10")) (lit "10.4")
               = ([Beep; PrintChange (lit "10") (lit "10.4")],
                  Ok (Some (lit "10.4")))).
  { apply change_detector_alert; [exact H3|].
    rewrite Ht. vm_compute. reflexivity. }
  repeat split; try assumption.
  rewrite feed_cons, S1, bind_ok, feed_cons, S2, bind_ok.
  rewrite feed_cons, S3, bind_ok. reflexivity.
Qed.

(** The two differences from the baseline 10, as binary64 numbers, against
    the threshold 0.3. *)
Example differences_from_baseline :
  Float64.sub (lit "10.05") (lit "10")
  = S754_finite false 7205759403792896 (-57) /\
  Float64.sub (lit "10.4") (lit "10")
  = S754_finite false 7205759403792800 (-54) /\
  lit "0.3" = S754_finite false 5404319552844595 (-54).
Proof. repeat split; vm_compute; reflexivity. Qed.

Lemma feed_three_samples_witness :
  feed example_args None [lit "10"; lit "10.05"; lit "10.4"]
  = ([Beep; PrintChange (lit "10") (lit "10.4")], Ok (Some (lit "10.4"))).
Proof.
  apply (feed_three_samples example_args); vm_compute; reflexivity.
Defined.

(** The same run through the loop, the file holding the three values in
    turn. *)
Example monitor_three_samples :
  monitor example_args [holding "10"; holding "10.05"; holding "10.4"]
  = ([ReadText "value.txt"; Sleep (lit "1.0");
      ReadText "value.txt"; Sleep (lit "1.0");
      ReadText "value.txt"; Beep; PrintChange (lit "10") (lit "10.4");
      Sleep (lit "1.0")],
     Ok (Some (lit "10.4"))).
Proof. vm_compute. reflexivity. Qed.

(** C6. Whatever was fed before and whatever baseline was held, a sample
    out of range leaves no baseline, and an in-range sample that follows it
    adds nothing to the trace, so no alert, and becomes the baseline. *)
Theorem reentry_sets_baseline_silently args (last : option float)
  (before : list float) (v_out v_in : float) :
  value_in_range v_out (min_value args) (max_value args) = false ->
  value_in_range v_in (min_value args) (max_value args) = true ->
  outcome (feed args last (before ++ [v_out])) = Ok None /\
  feed args last (before ++ [v_out; v_in])
  = (trace (feed args last (before ++ [v_out])), Ok (Some v_in)).
Proof.
  intros Hout Hin.
  assert (E : feed args last (before ++ [v_out])
              = (trace (feed args last before), Ok None)).
  { rewrite feed_app.
    destruct (feed_returns args before last) as [l H].
    destruct (feed args last before) as [tr r]. simpl in H. subst r.
    rewrite bind_ok, feed_cons, change_detector_out_of_range by exact Hout.
    simpl. now rewrite app_nil_r. }
  split; [now rewrite E|].
  change (before ++ [v_out; v_in])%list
    with (before ++ ([v_out] ++ [v_in]))%list.
  rewrite app_assoc, feed_app, E, bind_ok, feed_cons.
  rewrite change_detector_first by exact Hin.
  simpl. now rewrite app_nil_r.
Qed.

Lemma reentry_sets_baseline_silently_witness :
  feed example_args None [lit "10"; lit "200"; lit "90"]
  = ([], Ok (Some (lit "90"))).
Proof.
  pose proof (reentry_sets_baseline_silently example_args None
                [lit "10"] (lit "200") (lit "90")
                ltac:(vm_compute; reflexivity)
                ltac:(vm_compute; reflexivity)) as [_ H].
  exact H.
Defined.

(** C7, amended. For a threshold that is not negative and an in-range
    value: the first occurrence sets the baseline without an alert, a
    further occurrence leaves the state as it is without an alert, and so a
    run of any number of occurrences fires nothing. *)
Theorem repeated_sample_is_silent args (v : float) (n : nat) :
  Float64.lt (threshold args) Float64.zero = false ->
  value_in_range v (min_value args) (max_value args) = true ->
  change_detector args None v = ([], Ok (Some v)) /\
  change_detector args (Some v) v = ([], Ok (Some v)) /\
  feed args None (repeat v (S n)) = ([], Ok (Some v)).
Proof.
  intros Ht Hin.
  assert (S1 := change_detector_first args v Hin).
  assert (S2 : change_detector args (Some v) v = ([], Ok (Some v))).
  { apply change_detector_quiet; [exact Hin|].
    now apply Float64Facts.same_value_within. }
  repeat split; try assumption.
  simpl repeat. rewrite feed_cons, S1, bind_silent.
  induction n as [|n IH]; [reflexivity|].
  simpl repeat. now rewrite feed_cons, S2, bind_silent.
Qed.

Lemma repeated_sample_is_silent_witness :
  feed example_args None (repeat (lit "42.5") 4)
  = ([], Ok (Some (lit "42.5"))).
Proof.
  apply (repeated_sample_is_silent example_args (lit "42.5") 3);
    vm_compute; reflexivity.
Defined.

(** C7, as stated, fails: with the threshold -1, which [--threshold]
    accepts, the in-range value 7 fed twice fires on its second
    occurrence. *)
Example negative_threshold_fires :
  feed {| command := None; file := Some "value.txt"; interval := lit "1.0";
          min_value := None; max_value := None; threshold := lit "-1" |}
       None [lit "7"; lit "7"]
  = ([Beep; PrintChange (lit "7") (lit "7")], Ok (Some (lit "7"))).
Proof. vm_compute. reflexivity. Qed.

(** ** The Monitor Loop *)

Lemma acquire_command args os cmd :
  command args = Some cmd -> truthy (Some cmd) = true ->
  acquire args os = fetch_value_from_command os cmd.
Proof.
  intros H Ht. unfold acquire. rewrite H.
  destruct cmd; [discriminate|reflexivity].
Qed.

Lemma acquire_file args os :
  truthy (command args) = false ->
  acquire args os = fetch_value_from_file os (file args).
Proof.
  unfold acquire, truthy.
  destruct (command args) as [[|c s]|]; [reflexivity|discriminate|reflexivity].
Qed.

Lemma acquisition_failure_no_sample args os :
  acquisition_failure args os ->
  outcome (acquire args os) = Ok None /\
  alerts (trace (acquire args os)) = [].
Proof.
  intros [cmd p Hc Ht Hr Hrc | cmd p Hc Ht Hr Hrc Hx
         | path Hc Hf Hr | path exc Hc Hf Hr | path content Hc Hf Hr Hx].
  - rewrite (acquire_command _ _ _ Hc Ht). unfold fetch_value_from_command.
    rewrite Hr. apply Z.eqb_neq in Hrc. rewrite Hrc. split; reflexivity.
  - rewrite (acquire_command _ _ _ Hc Ht). unfold fetch_value_from_command.
    rewrite Hr, Hrc. unfold extract_value in Hx. rewrite Hx.
    split; reflexivity.
  - rewrite (acquire_file _ _ Hc), Hf. unfold fetch_value_from_file.
    rewrite Hr. split; reflexivity.
  - rewrite (acquire_file _ _ Hc), Hf. unfold fetch_value_from_file.
    rewrite Hr. split; reflexivity.
  - rewrite (acquire_file _ _ Hc), Hf. unfold fetch_value_from_file.
    rewrite Hr. unfold extract_value in Hx. rewrite Hx. split; reflexivity.
Qed.

(** Conversely, an acquisition that returns without a sample failed in one
    of these ways. *)
Lemma no_sample_acquisition_failure args os :
  outcome (acquire args os) = Ok None -> acquisition_failure args os.
Proof.
  unfold acquire.
  destruct (command args) as [[|c s]|] eqn:Hc.
  1, 3: assert (Ht : truthy (command args) = false) by now rewrite Hc.
  1, 2: unfold fetch_value_from_file;
    destruct (file args) as [path|] eqn:Hf; [|discriminate];
    destruct (read_text os path) as [content|[]] eqn:Hr; simpl;
    try discriminate;
    [ destruct (first_float (tokens_of content)) eqn:Hx; [discriminate|];
      intros _; eapply file_no_number; eassumption
    | intros _; eapply file_not_found; eassumption
    | intros _; eapply file_io_error; eassumption ].
  unfold fetch_value_from_command.
  destruct (run os (String c s)) as [p|e] eqn:Hr; [|discriminate].
  destruct (returncode p =? 0)%Z eqn:Hrc; simpl.
  - apply Z.eqb_eq in Hrc.
    destruct (first_float (tokens_of (stdout p))) eqn:Hx; [discriminate|].
    intros _. eapply command_no_number; try eassumption. reflexivity.
  - apply Z.eqb_neq in Hrc.
    intros _. eapply command_exit_nonzero; try eassumption. reflexivity.
Qed.

(** C9. An iteration whose acquisition fails (the command exits with a
    code other than zero, the file cannot be read, no token is a number)
    returns the [last_value] it was given and fires no alert; an iteration
    whose sample is out of range returns [None]. *)
Theorem failed_acquisition_keeps_state args os (last : option float) :
  acquisition_failure args os ->
  outcome (monitor_body args os last) = Ok last /\
  alerts (trace (monitor_body args os last)) = [] /\
  (forall os' log v,
     acquire args os' = (log, Ok (Some v)) ->
     value_in_range v (min_value args) (max_value args) = false ->
     outcome (monitor_body args os' last) = Ok None).
Proof.
  intros Hf. apply acquisition_failure_no_sample in Hf as [Ho Ha].
  destruct (acquire args os) as [log r] eqn:E. simpl in Ho, Ha. subst r.
  rewrite (monitor_body_no_sample _ _ _ _ E). simpl.
  split; [reflexivity|]. split.
  - unfold alerts in *. rewrite filter_app, Ha. reflexivity.
  - intros os' log' v E' Hout.
    rewrite (monitor_body_sample _ _ _ _ _ E').
    now rewrite change_detector_out_of_range.
Qed.

Lemma failed_acquisition_keeps_state_witness :
  outcome (monitor_body example_args failing (Some (lit "10")))
  = Ok (Some (lit "10")).
Proof.
  refine (proj1 (failed_acquisition_keeps_state example_args failing
                   (Some (lit "10")) _)).
  apply (file_not_found example_args failing "value.txt"); reflexivity.
Defined.

(** C10. With the empty string as the command and no file, the dispatch
    takes the file branch; the reader is called with [None], raises
    [AttributeError], which its handlers do not catch, and the loop ends
    with that exception, having run no command and done nothing else. *)
Theorem empty_command_reads_absent_file args os (last : option float) :
  command args = Some EmptyString -> file args = None ->
  acquire args os = fetch_value_from_file os None /\
  fetch_value_from_file os None = ([], Raise AttributeError) /\
  monitor_body args os last = ([], Raise AttributeError) /\
  forall world, monitor args (os :: world) = ([], Raise AttributeError).
Proof.
  intros Hc Hf.
  assert (E : acquire args os = ([], Raise AttributeError)).
  { unfold acquire. rewrite Hc, Hf. reflexivity. }
  split; [exact E|]. split; [reflexivity|].
  split.
  - apply monitor_body_raise, E.
  - intros world. unfold monitor. simpl.
    rewrite (monitor_body_raise _ _ _ _ _ E). reflexivity.
Qed.

Lemma empty_command_reads_absent_file_witness :
  monitor_body
    {| command := Some EmptyString; file := None; interval := lit "1.0";
       min_value := None; max_value := None; threshold := lit "0.0" |}
    (holding "7.0") None
  = ([], Raise AttributeError).
Proof.
  refine (proj1 (proj2 (proj2
    (empty_command_reads_absent_file _ (holding "7.0") None _ _))));
    reflexivity.
Defined.

(** A command that is not empty is run. *)
Example command_is_run :
  monitor_body
    {| command := Some "echo 7.0"; file := None; interval := lit "1.0";
       min_value := None; max_value := None; threshold := lit "0.0" |}
    (holding "7.0") None
  = ([Run "echo 7.0"; Sleep (lit "1.0")], Ok (Some (lit "7.0"))).
Proof. vm_compute. reflexivity. Qed.

(** *** The loop and the detector *)

Lemma fetch_value_from_command_no_alert os cmd :
  alerts (trace (fetch_value_from_command os cmd)) = [].
Proof.
  unfold fetch_value_from_command.
  destruct (run os cmd) as [p|e]; [|reflexivity].
  destruct (negb (returncode p =? 0)%Z); [reflexivity|].
  destruct (first_float (tokens_of (stdout p))); reflexivity.
Qed.

Lemma fetch_value_from_file_no_alert os path :
  alerts (trace (fetch_value_from_file os path)) = [].
Proof.
  unfold fetch_value_from_file.
  destruct path as [p|]; [|reflexivity].
  destruct (read_text os p) as [content|[]]; try reflexivity.
  destruct (first_float (tokens_of content)); reflexivity.
Qed.

Lemma acquire_no_alert args os : alerts (trace (acquire args os)) = [].
Proof.
  unfold acquire. destruct (command args) as [[|c s]|];
    auto using fetch_value_from_command_no_alert,
               fetch_value_from_file_no_alert.
Qed.

Lemma monitor_loop_cons args os world last :
  monitor_loop args (os :: world) last
  = (last' <- monitor_body args os last ;; monitor_loop args world last').
Proof. reflexivity. Qed.

Lemma samples_cons args os world :
  samples args (os :: world) = (obtained args os ++ samples args world)%list.
Proof. reflexivity. Qed.

Lemma samples_app args a b :
  samples args (a ++ b) = (samples args a ++ samples args b)%list.
Proof. apply flat_map_app. Qed.

(** As long as no acquisition raises, the loop ends in the state, and fires
    the alerts, of the detector run over the samples obtained: iterations
    without a sample count for nothing. *)
Lemma monitor_loop_feed args world : forall last,
  Forall (fun os => exists v, outcome (acquire args os) = Ok v) world ->
  outcome (monitor_loop args world last)
  = outcome (feed args last (samples args world)) /\
  alerts (trace (monitor_loop args world last))
  = trace (feed args last (samples args world)).
Proof.
  induction world as [|os world IH]; intros last Hw.
  - split; reflexivity.
  - inversion Hw as [|? ? [v Hv] Hw']; subst.
    pose proof (acquire_no_alert args os) as Hq.
    destruct (acquire args os) as [log r] eqn:E.
    cbn [trace outcome fst snd] in Hv, Hq. subst r.
    assert (Ho : obtained args os
                 = match v with Some x => [x] | None => [] end)
      by (unfold obtained; rewrite E; reflexivity).
    rewrite monitor_loop_cons, samples_cons, Ho.
    destruct v as [v|].
    + rewrite (monitor_body_sample _ _ _ _ _ E).
      change ([v] ++ samples args world)%list with (v :: samples args world).
      rewrite feed_cons.
      destruct (change_detector_returns args last v) as [l1 H1].
      pose proof (change_detector_trace_alerts args last v) as Ha.
      destruct (change_detector args last v) as [tr r].
      cbn [trace outcome fst snd] in H1, Ha |- *. subst r.
      rewrite !bind_ok. cbn [trace outcome fst snd].
      destruct (IH l1 Hw') as [IH1 IH2]. split; [exact IH1|].
      unfold alerts in *. rewrite !filter_app, Hq, Ha, IH2.
      cbn [filter is_alert app]. now rewrite app_nil_r.
    + rewrite (monitor_body_no_sample _ _ _ _ E), bind_ok.
      cbn [trace outcome fst snd app].
      destruct (IH last Hw') as [IH1 IH2]. split; [exact IH1|].
      unfold alerts in *. rewrite !filter_app, Hq, IH2. reflexivity.
Qed.

(** C6 seen from the loop: iterations without a sample may come between
    the sample out of range and the one back in range. *)
Lemma monitor_loop_reentry args before os_out gap os_in log_out v_out
  log_in v_in : forall last,
  Forall (fun os => exists v, outcome (acquire args os) = Ok v) before ->
  Forall (fun os => outcome (acquire args os) = Ok None) gap ->
  acquire args os_out = (log_out, Ok (Some v_out)) ->
  acquire args os_in = (log_in, Ok (Some v_in)) ->
  value_in_range v_out (min_value args) (max_value args) = false ->
  value_in_range v_in (min_value args) (max_value args) = true ->
  outcome (monitor_loop args (before ++ os_out :: gap ++ [os_in]) last)
  = Ok (Some v_in) /\
  alerts (trace (monitor_loop args (before ++ os_out :: gap ++ [os_in]) last))
  = alerts (trace (monitor_loop args before last)).
Proof.
  intros last Hb Hg Eout Ein Hout Hin.
  assert (Hgap : samples args gap = []).
  { clear -Hg. induction gap as [|os gap IH]; [reflexivity|].
    inversion Hg as [|? ? H Hg']; subst.
    rewrite samples_cons, IH by exact Hg'. unfold obtained. now rewrite H. }
  assert (Hs : samples args (before ++ os_out :: gap ++ [os_in])
               = (samples args before ++ [v_out; v_in])%list).
  { rewrite samples_app, samples_cons, samples_app, Hgap.
    change [os_in] with (os_in :: []). rewrite samples_cons.
    unfold obtained. rewrite Eout, Ein. reflexivity. }
  assert (Hall : Forall (fun os => exists v, outcome (acquire args os) = Ok v)
                   (before ++ os_out :: gap ++ [os_in])).
  { apply Forall_app. split; [exact Hb|]. constructor.
    - exists (Some v_out). now rewrite Eout.
    - apply Forall_app. split.
      + eapply Forall_impl; [|exact Hg]. intros os H. now exists None.
      + constructor; [|constructor]. exists (Some v_in). now rewrite Ein. }
  destruct (monitor_loop_feed args _ last Hall) as [H1 H2].
  destruct (monitor_loop_feed args _ last Hb) as [_ H4].
  rewrite H1, H2, H4, Hs.
  assert (E : feed args last (samples args before ++ [v_out])
              = (trace (feed args last (samples args before)), Ok None)).
  { rewrite feed_app.
    destruct (feed_returns args (samples args before) last) as [l H].
    destruct (feed args last (samples args before)) as [tr r].
    simpl in H. subst r.
    rewrite bind_ok, feed_cons, change_detector_out_of_range by exact Hout.
    simpl. now rewrite app_nil_r. }
  change (samples args before ++ [v_out; v_in])%list
    with (samples args before ++ ([v_out] ++ [v_in]))%list.
  rewrite app_assoc, feed_app, E, bind_ok, feed_cons.
  rewrite change_detector_first by exact Hin.
  simpl. rewrite app_nil_r. split; reflexivity.
Qed.

(** The scenario of a file that holds [7.0] and then [7.5], with the range
    from 0 to 10 and the threshold 0: one alert, from 7.0 to 7.5. *)
Example monitor_file_scenario :
  alerts (trace (monitor
    {| command := None; file := Some "value.txt"; interval := lit "1.0";
       min_value := Some (lit "0"); max_value := Some (lit "10");
       threshold := lit "0" |}
    [holding "7.0"; holding "7.5"]))
  = [Beep; PrintChange (lit "7.0") (lit "7.5")].
Proof. vm_compute. reflexivity. Qed.

(** * Further properties *)

(** ** The extractor on whole texts *)

Lemma split_on_blank (sep : ascii -> bool) (s : string) :
  string_forall sep s = true -> split_on sep EmptyString s = [].
Proof.
  induction s as [|c s IH]; simpl; [reflexivity|].
  intros H. apply andb_prop in H as [Hc Hs]. rewrite Hc. now apply IH.
Qed.

Lemma tokens_of_split (text : string) :
  tokens_of text = split_on is_separator EmptyString text.
Proof. apply split_replace_comma. Qed.

(** X1. A text made of whitespace and commas only, the empty text among
    them, has no token, so the extractor finds nothing in it. *)
Theorem extract_value_blank (text : string) :
  string_forall is_separator text = true ->
  tokens_of text = [] /\ extract_value text = None.
Proof.
  intros H. unfold extract_value. rewrite tokens_of_split.
  rewrite (split_on_blank _ _ H). split; reflexivity.
Qed.

Lemma extract_value_blank_witness :
  tokens_of " , ,,  " = [] /\ extract_value " , ,,  " = None.
Proof. apply extract_value_blank. reflexivity. Defined.

(** X2. The extractor reads a text token by token: separators in front are
    skipped; a first token that is a float literal decides the result,
    whatever follows it; a first token that is none is dropped and the rest
    of the text decides. A text that is one token is parsed as a whole. *)
Theorem extract_value_unfold (t rest : string) (d : ascii) :
  is_token is_separator t -> is_separator d = true ->
  extract_value (String d rest) = extract_value rest /\
  extract_value t = float_of_string t /\
  extract_value (t ++ String d rest)
  = match float_of_string t with
    | Some x => Some x
    | None => extract_value rest
    end.
Proof.
  intros Ht Hd. unfold extract_value. rewrite !tokens_of_split.
  rewrite (split_on_skip _ _ _ Hd), (split_on_last _ _ Ht).
  rewrite (split_on_cons _ _ _ _ Ht Hd). simpl.
  split; [reflexivity|]. split; [|reflexivity].
  destruct (float_of_string t); reflexivity.
Qed.

Lemma extract_value_unfold_witness :
  extract_value "mem: 10" = extract_value "10".
Proof.
  pose proof (extract_value_unfold "mem:" "10" " "
                ltac:(split; [discriminate|reflexivity]) eq_refl)
    as (_ & _ & H).
  exact H.
Defined.

Lemma split_on_map (f : ascii -> ascii) (text : string) :
  (forall c, is_separator (f c) = is_separator c) ->
  (forall c, is_separator c = false -> f c = c) ->
  forall cur,
    split_on is_separator cur (map_string f text)
    = split_on is_separator cur text.
Proof.
  intros Hsep Hfix. induction text as [|c text IH]; intros cur; simpl.
  - reflexivity.
  - rewrite Hsep. destruct (is_separator c) eqn:Hc.
    + now rewrite !IH.
    + rewrite (Hfix c Hc). apply IH.
Qed.

(** X3. Which separator stands between the tokens does not matter: a text
    in which separators are exchanged for other separators, all else being
    kept, has the same tokens and gives the same value. *)
Theorem extract_value_separators (f : ascii -> ascii) (text : string) :
  (forall c, is_separator (f c) = is_separator c) ->
  (forall c, is_separator c = false -> f c = c) ->
  tokens_of (map_string f text) = tokens_of text /\
  extract_value (map_string f text) = extract_value text.
Proof.
  intros Hsep Hfix.
  assert (E : tokens_of (map_string f text) = tokens_of text).
  { rewrite !tokens_of_split. now apply split_on_map. }
  split; [exact E|]. unfold extract_value. now rewrite E.
Qed.

Lemma extract_value_separators_witness :
  extract_value (replace "," " " "1.5,2") = extract_value "1.5,2".
Proof.
  apply (extract_value_separators
           (fun c => if Ascii.eqb c "," then " "%char else c)).
  - intros c. destruct (Ascii.eqb c ",") eqn:E; [|reflexivity].
    apply Ascii.eqb_eq in E. subst c. reflexivity.
  - intros c Hc. destruct (Ascii.eqb c ",") eqn:E; [|reflexivity].
    apply Ascii.eqb_eq in E. subst c. discriminate.
Defined.

(** ** The two readers *)

(** X4. The two readers treat their text alike: a command that exits with
    code zero and printed a text, and a file that holds the same text, give
    the same result, the value that the extractor finds in the text. *)
Theorem readers_agree (os os' : OS) (cmd path : string)
  (p : CompletedProcess) :
  run os cmd = Ok p -> returncode p = 0%Z ->
  read_text os' path = Ok (stdout p) ->
  outcome (fetch_value_from_command os cmd) = Ok (extract_value (stdout p)) /\
  outcome (fetch_value_from_file os' (Some path))
  = outcome (fetch_value_from_command os cmd).
Proof.
  intros Hr Hc Hf.
  rewrite (fetch_value_from_command_extracts _ _ _ Hr Hc).
  rewrite (fetch_value_from_file_extracts _ _ _ Hf). split; reflexivity.
Qed.

Lemma readers_agree_witness :
  outcome (fetch_value_from_file (holding "t=21.5") (Some "value.txt"))
  = outcome (fetch_value_from_command (holding "t=21.5") "sensors").
Proof.
  refine (proj2 (readers_agree (holding "t=21.5") (holding "t=21.5")
                   "sensors" "value.txt" _ eq_refl eq_refl eq_refl)).
Defined.

Lemma count_app p (a b : list event) :
  count p (a ++ b) = count p a + count p b.
Proof. unfold count. now rewrite filter_app, List.length_app. Qed.

(** X5. An acquisition that returns writes to standard error exactly when
    it obtained no sample, and then with one write, which carries one
    message; and a command that exits with a code other than zero gives no
    sample whatever it printed. *)
Theorem acquire_reports_failure args os log (v : option float) :
  acquire args os = (log, Ok v) ->
  count is_stderr log = match v with Some _ => 0 | None => 1 end /\
  (forall cmd p, command args = Some cmd -> truthy (Some cmd) = true ->
     run os cmd = Ok p -> returncode p <> 0%Z -> v = None).
Proof.
  intros H. split.
  - revert H. unfold acquire.
    destruct (command args) as [[|c s]|].
    1, 3: unfold fetch_value_from_file;
      destruct (file args) as [path|]; [|discriminate];
      destruct (read_text os path) as [content|[]]; simpl;
      try discriminate;
      [ destruct (first_float (tokens_of content)) | | ];
      intros H; injection H as <- <-; reflexivity.
    unfold fetch_value_from_command.
    destruct (run os (String c s)) as [p|e]; [|discriminate].
    destruct (negb (returncode p =? 0)%Z); simpl;
      [|destruct (first_float (tokens_of (stdout p)))];
      intros H; injection H as <- <-; reflexivity.
  - intros cmd p Hc Ht Hr Hrc.
    rewrite (acquire_command _ _ _ Hc Ht) in H.
    unfold fetch_value_from_command in H. rewrite Hr in H.
    apply Z.eqb_neq in Hrc. rewrite Hrc in H. simpl in H. congruence.
Qed.

Lemma acquire_reports_failure_witness :
  count is_stderr
    [ReadText "value.txt"; StderrWrite (NoNumberInFile "value.txt")] = 1.
Proof.
  refine (proj1 (acquire_reports_failure example_args (holding "n/a")
                   _ None _)).
  reflexivity.
Defined.

(** ** The loop as a whole *)

Lemma monitor_loop_app args a b : forall last,
  monitor_loop args (a ++ b) last
  = (last' <- monitor_loop args a last ;; monitor_loop args b last').
Proof.
  induction a as [|os a IH]; intros last.
  - simpl app. simpl monitor_loop. now rewrite bind_ret_l.
  - change ((os :: a) ++ b)%list with (os :: (a ++ b))%list.
    rewrite !monitor_loop_cons, bind_assoc. apply bind_ext.
    intros l. apply IH.
Qed.

(** Case analysis of one iteration: on the source, on what it answers, on
    the range, the baseline and the threshold. *)
Ltac iteration_cases args os last :=
  unfold monitor_body, acquire, fetch_value_from_command,
    fetch_value_from_file, change_detector;
  destruct (command args) as [[|? ?]|];
  repeat first
    [ progress cbn [bind ret emit raise beep]
    | match goal with
      | |- context [file args] => destruct (file args)
      | |- context [read_text os ?p] => destruct (read_text os p) as [?|[]]
      | |- context [run os ?c] => destruct (run os c)
      | |- context [negb (Z.eqb ?a ?b)] => destruct (negb (Z.eqb a b))
      | |- context [first_float ?t] => destruct (first_float t)
      | |- context [value_in_range ?v ?a ?b] =>
          destruct (value_in_range v a b)
      | |- context [match last with _ => _ end] => destruct last
      | |- context [Float64.gt ?a ?b] => destruct (Float64.gt a b)
      end ].

(** X6. An exception ends the loop at once: when the acquisition of an
    iteration raises, the run ends with that exception, its trace is that
    of the iterations before followed by what the acquisition did, and
    nothing of what would come after is looked at. *)
Theorem monitor_loop_stops args (before after : list OS) (os : OS)
  (last l : option float) (log : list event) (e : exn) :
  outcome (monitor_loop args before last) = Ok l ->
  acquire args os = (log, Raise e) ->
  monitor_loop args (before ++ os :: after) last
  = ((trace (monitor_loop args before last) ++ log)%list, Raise e).
Proof.
  intros Hb He. rewrite monitor_loop_app.
  destruct (monitor_loop args before last) as [tr r]. simpl in Hb. subst r.
  rewrite bind_ok, monitor_loop_cons.
  rewrite (monitor_body_raise _ _ _ _ _ He). reflexivity.
Qed.

Lemma monitor_loop_stops_witness :
  monitor example_args [holding "10"; undecodable; holding "10.4"]
  = ([ReadText "value.txt"; Sleep (lit "1.0"); ReadText "value.txt"],
     Raise UnicodeDecodeError).
Proof.
  refine (monitor_loop_stops example_args [holding "10"] [holding "10.4"]
            undecodable None (Some (lit "10")) [ReadText "value.txt"]
            UnicodeDecodeError _ _).
  - vm_compute. reflexivity.
  - reflexivity.
Defined.


Lemma count_le_length p (log : list event) :
  count p log <= List.length log.
Proof. apply filter_length_le. Qed.

Lemma monitor_loop_count p args (bound : nat) :
  (forall os last, count p (trace (monitor_body args os last)) <= bound) ->
  forall world last,
    count p (trace (monitor_loop args world last))
    <= bound * List.length world.
Proof.
  intros Hbody. induction world as [|os world IH]; intros last.
  - simpl. unfold count. simpl. lia.
  - rewrite monitor_loop_cons. specialize (Hbody os last).
    destruct (monitor_body args os last) as [tr [l|e]]; simpl in Hbody.
    + rewrite bind_ok. simpl trace. rewrite count_app.
      specialize (IH l). simpl List.length. lia.
    + rewrite bind_raise. simpl trace. simpl List.length. lia.
Qed.

Lemma monitor_body_no_read args os last :
  truthy (command args) = true ->
  count is_read (trace (monitor_body args os last)) <= 0.
Proof.
  intros Ht. unfold truthy in Ht. iteration_cases args os last;
    try discriminate; vm_compute; lia.
Qed.

Lemma monitor_body_no_run args os last :
  truthy (command args) = false ->
  count is_run (trace (monitor_body args os last)) <= 0.
Proof.
  intros Ht. unfold truthy in Ht. iteration_cases args os last;
    try discriminate; vm_compute; lia.
Qed.

Lemma monitor_body_one_access args os last :
  count (fun ev => is_run ev || is_read ev)
    (trace (monitor_body args os last)) <= 1.
Proof. iteration_cases args os last; vm_compute; lia. Qed.

(** X8. A run touches one source only: with a command that is not empty it
    never reads a file, otherwise it never runs a command; and it makes at
    most one access per iteration. *)
Theorem monitor_single_source args (world : list OS) (last : option float) :
  (truthy (command args) = true ->
     count is_read (trace (monitor_loop args world last)) = 0) /\
  (truthy (command args) = false ->
     count is_run (trace (monitor_loop args world last)) = 0) /\
  count (fun ev => is_run ev || is_read ev)
    (trace (monitor_loop args world last)) <= List.length world.
Proof.
  split; [|split].
  - intros Ht.
    pose proof (monitor_loop_count is_read args 0
                  (fun os l => monitor_body_no_read args os l Ht) world last).
    lia.
  - intros Ht.
    pose proof (monitor_loop_count is_run args 0
                  (fun os l => monitor_body_no_run args os l Ht) world last).
    lia.
  - pose proof (monitor_loop_count _ args 1
                  (monitor_body_one_access args) world last).
    lia.
Qed.

Lemma monitor_single_source_witness :
  count is_run
    (trace (monitor example_args [holding "10"; failing; holding "10.4"]))
  = 0.
Proof.
  refine (proj1 (proj2 (monitor_single_source example_args _ None)) _).
  reflexivity.
Defined.





(** X10. With an interval that [time.sleep] accepts, and started without
    a baseline, a run in which no acquisition raises ends in the state, and
    fires in order the alerts, of the detector fed with the samples that
    the iterations obtained; the iterations without a sample change
    nothing. *)
Theorem monitor_runs_detector args (world : list OS) :
  sleep_accepts (interval args) = true ->
  Forall (fun os => exists v, outcome (acquire args os) = Ok v) world ->
  outcome (monitor args world)
  = outcome (feed args None (samples args world)) /\
  alerts (trace (monitor args world))
  = trace (feed args None (samples args world)).
Proof. intros _ Hw. unfold monitor. now apply monitor_loop_feed. Qed.

Lemma monitor_runs_detector_witness :
  alerts (trace (monitor example_args [holding "10"; failing; holding "10.4"]))
  = trace (feed example_args None
             (samples example_args [holding "10"; failing; holding "10.4"])).
Proof.
  refine (proj2 (monitor_runs_detector example_args
                   [holding "10"; failing; holding "10.4"] _ _));
    [vm_compute; reflexivity|].
  repeat constructor.
  - exists (Some (lit "10")). vm_compute. reflexivity.
  - exists None. reflexivity.
  - exists (Some (lit "10.4")). vm_compute. reflexivity.
Defined.

(** ** Invariants of the detector *)

(** The state after one step: none for a sample out of range; for one in
    range, the sample or the baseline held before. *)
Lemma change_detector_state args last v :
  exists l1, outcome (change_detector args last v) = Ok l1 /\
    ((value_in_range v (min_value args) (max_value args) = false /\
      l1 = None) \/
     (value_in_range v (min_value args) (max_value args) = true /\
      (l1 = Some v \/ (l1 = last /\ last <> None)))).
Proof.
  unfold change_detector.
  destruct (value_in_range v (min_value args) (max_value args)); simpl.
  - destruct last as [b|].
    + destruct (Float64.gt _ _); eexists; split; try reflexivity;
        right; split; auto. right. split; [reflexivity|discriminate].
    + eexists; split; [reflexivity|]. right. auto.
  - eexists; split; [reflexivity|]. left. auto.
Qed.

(** The printed lines of one step. *)
Lemma change_detector_changes args last v old new :
  In (old, new) (changes (trace (change_detector args last v))) ->
  last = Some old /\ new = v /\
  value_in_range v (min_value args) (max_value args) = true /\
  Float64.gt (Float64.abs (Float64.sub v old)) (threshold args) = true.
Proof.
  unfold change_detector.
  destruct (value_in_range v (min_value args) (max_value args)); simpl;
    [|intros []].
  destruct last as [b|]; [|intros []].
  destruct (Float64.gt _ _) eqn:Hgt; simpl; [|intros []].
  intros [H|[]]. injection H as <- <-. auto.
Qed.

Lemma changes_app (a b : list event) :
  changes (a ++ b) = (changes a ++ changes b)%list.
Proof.
  induction a as [|ev a IH]; simpl; [reflexivity|].
  destruct ev; simpl; now rewrite IH.
Qed.

Lemma feed_step args last v rest :
  exists tr l1,
    change_detector args last v = (tr, Ok l1) /\
    feed args last (v :: rest)
    = ((tr ++ trace (feed args l1 rest))%list, outcome (feed args l1 rest)).
Proof.
  destruct (change_detector_returns args last v) as [l1 H].
  destruct (change_detector args last v) as [tr r] eqn:E.
  simpl in H. subst r. exists tr, l1. split; [reflexivity|].
  now rewrite feed_cons, E, bind_ok.
Qed.

(** X11. The baseline is never a value out of range: after a run that
    started without a baseline, a baseline that is held is one of the
    samples fed, and it is in range. (Started with a baseline, the run can
    also still hold that one, and then every sample was in range.) *)
Theorem feed_baseline args (samples : list float) :
  forall (last : option float) (b : float),
  outcome (feed args last samples) = Ok (Some b) ->
  (In b samples /\
   value_in_range b (min_value args) (max_value args) = true) \/
  (last = Some b /\
   Forall (fun v => value_in_range v (min_value args) (max_value args) = true)
     samples).
Proof.
  induction samples as [|v rest IH]; intros last b H.
  - right. simpl in H. injection H as ->. split; [reflexivity|constructor].
  - destruct (feed_step args last v rest) as (tr & l1 & E & F).
    rewrite F in H. cbn [outcome snd] in H.
    destruct (change_detector_state args last v) as (l1' & Hl & Hs).
    rewrite E in Hl. cbn [outcome snd] in Hl. injection Hl as <-.
    destruct (IH l1 b H) as [[Hin Hr] | [Hl1 Hall]].
    + left. split; [now right|exact Hr].
    + destruct Hs as [[_ Hn] | [Hv [Hn | [Hn _]]]]; try congruence.
      * left. assert (b = v) by congruence. subst b.
        split; [now left|exact Hv].
      * right. split; [congruence|]. now constructor.
Qed.

Lemma feed_baseline_witness :
  In (lit "10.4") [lit "10"; lit "10.05"; lit "10.4"] /\
  value_in_range (lit "10.4") (min_value example_args)
    (max_value example_args) = true.
Proof.
  destruct (feed_baseline example_args [lit "10"; lit "10.05"; lit "10.4"]
              None (lit "10.4") ltac:(vm_compute; reflexivity))
    as [H | [H _]].
  - exact H.
  - discriminate H.
Defined.

(** X12. After a run that fed at least one sample, a baseline is held
    exactly when the last sample was in range. *)
Theorem feed_last_sample args (before : list float) (v : float)
  (last : option float) :
  (outcome (feed args last (before ++ [v])) = Ok None <->
   value_in_range v (min_value args) (max_value args) = false) /\
  ((exists b, outcome (feed args last (before ++ [v])) = Ok (Some b)) <->
   value_in_range v (min_value args) (max_value args) = true).
Proof.
  rewrite feed_app.
  destruct (feed_returns args before last) as [l H].
  destruct (feed args last before) as [tr r]. simpl in H. subst r.
  rewrite bind_ok. cbn [outcome snd].
  destruct (feed_step args l v []) as (tr1 & l1 & E & F).
  rewrite F. cbn [feed ret outcome snd].
  destruct (change_detector_state args l v) as (l1' & Hl & Hs).
  rewrite E in Hl. cbn [outcome snd] in Hl. injection Hl as <-.
  destruct Hs as [[Hv ->] | [Hv Hl1]]; rewrite Hv.
  - split; split; try reflexivity; try discriminate.
    intros [b Hb]. discriminate.
  - assert (exists b, l1 = Some b) as [b ->].
    { destruct Hl1 as [-> | [-> Hne]]; [eauto|].
      destruct l; [eauto|congruence]. }
    split; split; try discriminate; try reflexivity. eauto.
Qed.

(** X13. Every printed line is a real change: started without a baseline,
    a line [old -> new] is only printed for two samples that were fed, both
    in range, that differ by more than the threshold. *)
Theorem alerts_are_changes args (samples : list float) :
  forall (last : option float) (old new : float),
  In (old, new) (changes (trace (feed args last samples))) ->
  ((In old samples /\
    value_in_range old (min_value args) (max_value args) = true) \/
   last = Some old) /\
  In new samples /\
  value_in_range new (min_value args) (max_value args) = true /\
  Float64.gt (Float64.abs (Float64.sub new old)) (threshold args) = true.
Proof.
  induction samples as [|v rest IH]; intros last old new H.
  - destruct H.
  - destruct (feed_step args last v rest) as (tr & l1 & E & F).
    rewrite F in H. cbn [trace fst] in H.
    rewrite changes_app in H. apply in_app_or in H as [H | H].
    + pose proof (change_detector_changes args last v old new) as C.
      rewrite E in C. destruct (C H) as (Hl & -> & Hv & Hgt).
      split; [now right|]. split; [now left|]. split; assumption.
    + destruct (IH l1 old new H) as (Ho & Hn & Hr & Hgt).
      split; [|split; [now right|split; assumption]].
      destruct Ho as [[Ho Hro] | Ho]; [left; split; [now right|exact Hro]|].
      destruct (change_detector_state args last v) as (l1' & Hl & Hs).
      rewrite E in Hl. cbn [outcome snd] in Hl. injection Hl as <-.
      destruct Hs as [[_ Hn'] | [Hv [Hn' | [Hn' _]]]]; try congruence.
      * left. assert (old = v) by congruence. subst old.
        split; [now left|exact Hv].
      * right. congruence.
Qed.

Lemma alerts_are_changes_witness :
  Float64.gt (Float64.abs (Float64.sub (lit "10.4") (lit "10")))
    (threshold example_args) = true.
Proof.
  refine (proj2 (proj2 (proj2
    (alerts_are_changes example_args [lit "10"; lit "10.05"; lit "10.4"]
       None (lit "10") (lit "10.4") _)))).
  vm_compute. left. reflexivity.
Defined.

Lemma change_detector_paired args last v :
  trace (change_detector args last v)
  = flat_map alert_events (changes (trace (change_detector args last v))) /\
  List.length (changes (trace (change_detector args last v)))
  <= match last with Some _ => 1 | None => 0 end.
Proof.
  unfold change_detector.
  destruct (value_in_range v (min_value args) (max_value args)); simpl.
  - destruct last as [b|]; [|split; [reflexivity|simpl; lia]].
    destruct (Float64.gt _ _); split; simpl; try reflexivity; lia.
  - split; [reflexivity|]. destruct last; simpl; lia.
Qed.

(** X14. The detector beeps and prints together: its trace is one beep
    followed by its printed line for each change and nothing else. It
    fires at most once per sample, and, started without a baseline, not
    for the first one: [n] samples give at most [n - 1] alerts. *)
Theorem feed_alerts_paired args (samples : list float) :
  forall last : option float,
  trace (feed args last samples)
  = flat_map alert_events (changes (trace (feed args last samples))) /\
  List.length (changes (trace (feed args last samples)))
  <= match last with
     | Some _ => List.length samples
     | None => Nat.pred (List.length samples)
     end.
Proof.
  induction samples as [|v rest IH]; intros last.
  - split; [reflexivity|]. destruct last; simpl; lia.
  - destruct (feed_step args last v rest) as (tr & l1 & E & F).
    rewrite F. cbn [trace fst].
    destruct (change_detector_paired args last v) as [P1 P2].
    rewrite E in P1, P2. cbn [trace fst] in P1, P2.
    destruct (IH l1) as [Q1 Q2].
    rewrite changes_app, flat_map_app, <- P1, <- Q1.
    split; [reflexivity|]. rewrite List.length_app.
    simpl List.length.
    assert (List.length (changes (trace (feed args l1 rest)))
            <= List.length rest)
      by (destruct l1; [exact Q2|lia]).
    destruct last; simpl; lia.
Qed.

(** ** Thresholds and values that are no numbers *)

Lemma gt_nan_l (x : float) : Float64.gt Float64.nan x = false.
Proof. reflexivity. Qed.

Lemma gt_nan_r (x : float) : Float64.gt x Float64.nan = false.
Proof. unfold Float64.gt. now rewrite Float64Facts.compare_nan_r. Qed.

Lemma gt_infinity_r (x : float) : Float64.gt x (S754_infinity false) = false.
Proof. destruct x as [s|s| |s m e]; try destruct s; reflexivity. Qed.

Lemma sub_nan_l (x : float) : Float64.sub Float64.nan x = Float64.nan.
Proof. reflexivity. Qed.

Lemma sub_nan_r (x : float) : Float64.sub x Float64.nan = Float64.nan.
Proof. destruct x; reflexivity. Qed.

Lemma feed_quiet args (samples : list float) (b : float) :
  (forall v, In v samples ->
     value_in_range v (min_value args) (max_value args) = true /\
     Float64.gt (Float64.abs (Float64.sub v b)) (threshold args) = false) ->
  feed args (Some b) samples = ([], Ok (Some b)).
Proof.
  induction samples as [|v rest IH]; intros H; [reflexivity|].
  destruct (H v (or_introl eq_refl)) as [Hv Hq].
  rewrite feed_cons, (change_detector_quiet _ _ _ Hv Hq), bind_silent.
  apply IH. intros w Hw. apply H. now right.
Qed.

(** X15. A threshold that is a NaN or plus infinity silences the detector:
    whatever the samples and the baseline, nothing is ever fired. *)
Theorem deaf_threshold args (samples : list float) :
  forall last : option float,
  Float64.is_nan (threshold args) = true \/
  threshold args = S754_infinity false ->
  trace (feed args last samples) = [].
Proof.
  intros last Ht.
  assert (Hq : forall x, Float64.gt x (threshold args) = false).
  { intros x. destruct Ht as [Ht | ->]; [|apply gt_infinity_r].
    destruct (threshold args); try discriminate. apply gt_nan_r. }
  revert last. induction samples as [|v rest IH]; intros last;
    [reflexivity|].
  destruct (feed_step args last v rest) as (tr & l1 & E & F).
  rewrite F. cbn [trace fst]. rewrite IH, app_nil_r.
  revert E. unfold change_detector.
  destruct (value_in_range v (min_value args) (max_value args)); simpl.
  - destruct last as [b|]; [rewrite Hq|]; intros E; now injection E as <- _.
  - intros E; now injection E as <- _.
Qed.

Lemma deaf_threshold_witness :
  trace (feed {| command := None; file := Some "value.txt";
                 interval := lit "1.0"; min_value := None;
                 max_value := None; threshold := lit "nan" |}
           None [lit "1"; lit "1e9"; lit "-7"]) = [].
Proof. apply deaf_threshold. left. reflexivity. Defined.

(** X16. A NaN among the samples passes every range and never fires: it
    becomes the baseline when there is none and is passed over otherwise.
    Against a NaN baseline no sample fires, so the baseline stays the NaN
    as long as the samples are in range. *)
Theorem nan_is_silent args :
  (forall last,
     change_detector args last Float64.nan
     = ([], Ok (match last with
                | Some b => Some b
                | None => Some Float64.nan
                end))) /\
  (forall samples,
     Forall (fun v =>
               value_in_range v (min_value args) (max_value args) = true)
       samples ->
     feed args (Some Float64.nan) samples = ([], Ok (Some Float64.nan))).
Proof.
  split.
  - intros [b|].
    + apply change_detector_quiet; [apply value_in_range_nan|].
      rewrite sub_nan_l. apply gt_nan_l.
    + apply change_detector_first, value_in_range_nan.
  - intros samples Hall. apply feed_quiet. intros v Hv. split.
    + rewrite Forall_forall in Hall. now apply Hall.
    + rewrite sub_nan_r. apply gt_nan_l.
Qed.

Lemma nan_is_silent_witness :
  feed default_args (Some Float64.nan) [lit "1"; lit "1e9"; lit "-7"]
  = ([], Ok (Some Float64.nan)).
Proof.
  apply (proj2 (nan_is_silent default_args)).
  repeat constructor.
Defined.

(** *** The size of a change does not depend on its direction *)

Lemma abs_binary_round_aux (s s' : bool) (m e : Z) (l : location) :
  Float64.abs (binary_round_aux Float64.prec Float64.emax s m e l)
  = Float64.abs (binary_round_aux Float64.prec Float64.emax s' m e l).
Proof.
  unfold binary_round_aux.
  destruct (shr_fexp Float64.prec Float64.emax m e l) as [mrs' e'].
  destruct (shr_fexp Float64.prec Float64.emax _ e' loc_Exact) as [mrs'' e''].
  destruct (shr_m mrs''); [reflexivity| |reflexivity].
  destruct (e'' <=? Float64.emax - Float64.prec)%Z; reflexivity.
Qed.

Lemma abs_binary_normalize_opp (z e : Z) :
  Float64.abs (binary_normalize Float64.prec Float64.emax (- z) e false)
  = Float64.abs (binary_normalize Float64.prec Float64.emax z e false).
Proof.
  destruct z as [|p|p]; simpl; [reflexivity| |];
    unfold binary_round;
    destruct (shl_align p e _) as [mz ez]; apply abs_binary_round_aux.
Qed.

Lemma abs_sub_swap (a b : float) :
  Float64.abs (Float64.sub a b) = Float64.abs (Float64.sub b a).
Proof.
  destruct a as [sa|sa| |sa ma ea], b as [sb|sb| |sb mb eb];
    try reflexivity;
    try (destruct sa, sb; reflexivity);
    try (destruct sa; reflexivity); try (destruct sb; reflexivity).
  unfold Float64.sub, SFsub. rewrite (Z.min_comm eb ea).
  set (ez := Z.min ea eb).
  set (A := cond_Zopp sa (Z.pos (fst (shl_align ma ea ez)))).
  set (B := cond_Zopp sb (Z.pos (fst (shl_align mb eb ez)))).
  replace (B - A)%Z with (- (A - B))%Z by lia.
  symmetry. apply abs_binary_normalize_opp.
Qed.

(** X17. A rise and a fall between the same two values are judged alike:
    of two values in range, a sample of the one against a baseline of the
    other fires exactly when the converse does. *)
Theorem change_is_symmetric args (a b : float) :
  value_in_range a (min_value args) (max_value args) = true ->
  value_in_range b (min_value args) (max_value args) = true ->
  Float64.gt (Float64.abs (Float64.sub a b)) (threshold args)
  = Float64.gt (Float64.abs (Float64.sub b a)) (threshold args) /\
  (trace (change_detector args (Some a) b) = [] <->
   trace (change_detector args (Some b) a) = []).
Proof.
  intros Ha Hb. rewrite (abs_sub_swap a b). split; [reflexivity|].
  unfold change_detector. rewrite Ha, Hb, (abs_sub_swap a b). simpl.
  destruct (Float64.gt _ _); simpl; split; intros H;
    try discriminate; reflexivity.
Qed.

Lemma change_is_symmetric_witness :
  Float64.gt (Float64.abs (Float64.sub (lit "10") (lit "10.4")))
    (threshold example_args)
  = Float64.gt (Float64.abs (Float64.sub (lit "10.4") (lit "10")))
      (threshold example_args).
Proof.
  refine (proj1 (change_is_symmetric example_args (lit "10") (lit "10.4")
                   _ _)); vm_compute; reflexivity.
Defined.

(** ** Rounding never loses a difference *)

Module RoundingFacts.

Import Float64.

Lemma emin_value : emin prec emax = (-1074)%Z.
Proof. reflexivity. Qed.

Lemma fexp_spec (z : Z) : fexp prec emax z = Z.max (z - 53) (-1074).
Proof. reflexivity. Qed.

(** A number of [d] binary digits lies between [2 ^ (d - 1)] and [2 ^ d]. *)
Lemma digits2_bounds (m : positive) :
  (2 ^ (Z.pos (digits2_pos m) - 1) <= Z.pos m < 2 ^ Z.pos (digits2_pos m))%Z.
Proof.
  induction m as [m IH|m IH|]; simpl digits2_pos.
  - rewrite Pos2Z.inj_succ.
    replace (Z.succ (Z.pos (digits2_pos m)) - 1)%Z
      with (Z.succ (Z.pos (digits2_pos m) - 1))%Z by lia.
    rewrite !Z.pow_succ_r by lia. lia.
  - rewrite Pos2Z.inj_succ.
    replace (Z.succ (Z.pos (digits2_pos m)) - 1)%Z
      with (Z.succ (Z.pos (digits2_pos m) - 1))%Z by lia.
    rewrite !Z.pow_succ_r by lia. lia.
  - simpl. lia.
Qed.

Lemma shr_m_shr_1 (mrs : shr_record) :
  (0 <= shr_m mrs)%Z -> shr_m (shr_1 mrs) = (shr_m mrs / 2)%Z.
Proof.
  destruct mrs as [m r s]. cbn [shr_m]. intros Hm.
  destruct m as [|[p|p|]|p]; cbn [shr_1 shr_m]; try lia.
  - reflexivity.
  - apply (Z.div_unique _ 2 _ 1); lia.
  - apply (Z.div_unique _ 2 _ 0); lia.
  - reflexivity.
Qed.

Lemma shr_m_iter (p : positive) : forall mrs : shr_record,
  (0 <= shr_m mrs)%Z ->
  shr_m (iter_pos shr_1 p mrs) = (shr_m mrs / 2 ^ Z.pos p)%Z.
Proof.
  assert (Hpow : forall q, (0 < 2 ^ Z.pos q)%Z)
    by (intros q; apply Z.pow_pos_nonneg; lia).
  assert (Hne : forall q, (2 ^ Z.pos q)%Z <> 0%Z)
    by (intros q; specialize (Hpow q); lia).
  induction p as [p IH|p IH|]; intros mrs Hm; simpl iter_pos.
  - assert (H1 : (0 <= shr_m (shr_1 mrs))%Z)
      by (rewrite shr_m_shr_1 by exact Hm; apply Z.div_pos; lia).
    assert (H2 : (0 <= shr_m (iter_pos shr_1 p (shr_1 mrs)))%Z)
      by (rewrite IH by exact H1; apply Z.div_pos; [lia|apply Hpow]).
    rewrite IH, IH, shr_m_shr_1 by assumption.
    rewrite !Z.div_div by first [apply Hpow | apply Hne | lia].
    f_equal. rewrite Pos2Z.inj_xI.
    rewrite Z.pow_add_r, Z.pow_mul_r, Z.pow_1_r by lia.
    change (2 ^ 2)%Z with 4%Z.
    replace (4 ^ Z.pos p)%Z with (2 ^ Z.pos p * 2 ^ Z.pos p)%Z; [lia|].
    rewrite <- Z.pow_mul_l. reflexivity.
  - assert (H1 : (0 <= shr_m (iter_pos shr_1 p mrs))%Z)
      by (rewrite IH by exact Hm; apply Z.div_pos; [lia|apply Hpow]).
    rewrite IH, IH by assumption.
    rewrite Z.div_div by first [apply Hpow | apply Hne | lia].
    f_equal. replace (Z.pos p~0) with (Z.pos p + Z.pos p)%Z by lia.
    now rewrite Z.pow_add_r by lia.
  - rewrite shr_m_shr_1 by exact Hm. reflexivity.
Qed.

Lemma shr_m_of_loc (m : Z) (l : location) : shr_m (shr_record_of_loc m l) = m.
Proof. destruct l as [|[]]; reflexivity. Qed.

(** Shifting a positive mantissa to its place keeps it positive. *)
Lemma shr_fexp_positive (m : positive) (e : Z) (l : location) :
  (-1074 <= e)%Z ->
  (0 < shr_m (fst (shr_fexp prec emax (Z.pos m) e l)))%Z /\
  (-1074 <= snd (shr_fexp prec emax (Z.pos m) e l))%Z.
Proof.
  intros He. unfold shr_fexp, shr. rewrite fexp_spec.
  simpl Zdigits2. pose proof (digits2_bounds m) as [Hlo _].
  set (d := Z.pos (digits2_pos m)) in *.
  destruct (Z.max (d + e - 53) (-1074) - e)%Z as [|n|n] eqn:Hn;
    cbn [fst snd]; rewrite ?shr_m_of_loc; try lia.
  rewrite shr_m_iter by (rewrite shr_m_of_loc; lia).
  rewrite shr_m_of_loc. split; [|lia].
  assert (Hnd : (Z.pos n <= d - 1)%Z) by lia.
  apply Z.lt_le_trans with (2 ^ (d - 1) / 2 ^ Z.pos n)%Z.
  - replace (d - 1)%Z with ((d - 1 - Z.pos n) + Z.pos n)%Z by lia.
    rewrite Z.pow_add_r by lia.
    rewrite Z.div_mul by (apply Z.pow_nonzero; lia).
    apply Z.pow_pos_nonneg; lia.
  - apply Z.div_le_mono; [apply Z.pow_pos_nonneg; lia|exact Hlo].
Qed.

Lemma binary_round_aux_nonzero (s : bool) (m : positive) (e : Z)
  (l : location) :
  (-1074 <= e)%Z -> nonzero (binary_round_aux prec emax s (Z.pos m) e l).
Proof.
  intros He. unfold binary_round_aux.
  destruct (shr_fexp_positive m e l He) as [H1 H2].
  destruct (shr_fexp prec emax (Z.pos m) e l) as [mrs' e'].
  cbn [fst snd] in H1, H2.
  set (m1 := round_nearest_even (shr_m mrs') (loc_of_shr_record mrs')).
  assert (Hm1 : (0 < m1)%Z).
  { unfold m1, round_nearest_even.
    destruct (loc_of_shr_record mrs') as [|[]]; try lia.
    destruct (Z.even (shr_m mrs')); lia. }
  destruct m1 as [|p1|p1]; try lia.
  destruct (shr_fexp_positive p1 e' loc_Exact H2) as [H3 _].
  destruct (shr_fexp prec emax (Z.pos p1) e' loc_Exact) as [mrs'' e''].
  cbn [fst snd] in H3.
  destruct (shr_m mrs'') as [|p2|p2]; try lia.
  destruct (e'' <=? emax - prec)%Z; constructor.
Qed.

Lemma binary_normalize_nonzero (z e : Z) :
  z <> 0%Z -> (-1074 <= e)%Z ->
  nonzero (binary_normalize prec emax z e false).
Proof.
  intros Hz He.
  assert (H : forall s m, nonzero (binary_round prec emax s m e)).
  { intros s m. unfold binary_round, shl_align. rewrite fexp_spec.
    destruct (Z.max (Z.pos (digits2_pos m) + e - 53) (-1074) - e)%Z
      as [|n|n] eqn:Hn;
      apply binary_round_aux_nonzero; lia. }
  destruct z as [|p|p]; [congruence|apply H|apply H].
Qed.

Lemma nonzero_gt (x : float) : nonzero x -> gt (abs x) zero = true.
Proof. intros [s m e|s]; reflexivity. Qed.

End RoundingFacts.

Module DifferenceFacts.

Import Float64 RoundingFacts.

Lemma iter_xO_value (m d : positive) :
  Z.pos (Pos.iter xO m d) = (Z.pos m * 2 ^ Z.pos d)%Z.
Proof.
  induction d as [|d IH] using Pos.peano_ind.
  - simpl. lia.
  - rewrite Pos.iter_succ, Pos2Z.inj_succ, Z.pow_succ_r by lia.
    change (Z.pos (Pos.iter xO m d)~0) with (2 * Z.pos (Pos.iter xO m d))%Z.
    rewrite IH. lia.
Qed.

Lemma shl_align_value (m : positive) (e ez : Z) :
  (ez <= e)%Z ->
  Z.pos (fst (shl_align m e ez)) = (Z.pos m * 2 ^ (e - ez))%Z.
Proof.
  intros He. unfold shl_align.
  destruct (ez - e)%Z as [|d|d] eqn:Hd; cbn [fst]; try lia.
  - replace (e - ez)%Z with 0%Z by lia. simpl. lia.
  - rewrite iter_xO_value. f_equal. f_equal. lia.
Qed.

(** What validity says of a finite number. *)
Lemma valid_finite (s : bool) (m : positive) (e : Z) :
  valid_float (S754_finite s m e) = true ->
  (-1074 <= e)%Z /\ (Z.pos (digits2_pos m) <= 53)%Z /\
  ((-1074 < e)%Z -> Z.pos (digits2_pos m) = 53%Z).
Proof.
  unfold valid_float, valid_binary, bounded, canonical_mantissa.
  rewrite fexp_spec. intros H. apply andb_prop in H as [H _].
  apply Z.eqb_eq in H. lia.
Qed.

(** Of two valid numbers, the one with the greater exponent has the
    greater mantissa once both are written with the smaller exponent. *)
Lemma aligned_mantissas_differ (mx my : positive) (ex ey : Z) (sx sy : bool) :
  valid_float (S754_finite sx mx ex) = true ->
  valid_float (S754_finite sy my ey) = true ->
  (ex < ey)%Z ->
  (Z.pos mx < Z.pos my * 2 ^ (ey - ex))%Z.
Proof.
  intros Hx Hy Hlt.
  destruct (valid_finite _ _ _ Hx) as (Hex & Hdx & _).
  destruct (valid_finite _ _ _ Hy) as (_ & _ & Hdy).
  specialize (Hdy ltac:(lia)).
  pose proof (digits2_bounds mx) as [_ Hmx].
  pose proof (digits2_bounds my) as [Hmy _].
  rewrite Hdy in Hmy.
  assert (H53 : (2 ^ Z.pos (digits2_pos mx) <= 2 ^ 53)%Z)
    by (apply Z.pow_le_mono_r; lia).
  assert (H2 : (2 ^ 1 <= 2 ^ (ey - ex))%Z)
    by (apply Z.pow_le_mono_r; lia).
  change (2 ^ (53 - 1))%Z with 4503599627370496%Z in Hmy.
  change (2 ^ 53)%Z with 9007199254740992%Z in H53.
  change (2 ^ 1)%Z with 2%Z in H2.
  nia.
Qed.

Lemma finite_difference (sx sy : bool) (mx my : positive) (ex ey : Z) :
  valid_float (S754_finite sx mx ex) = true ->
  valid_float (S754_finite sy my ey) = true ->
  eqb (S754_finite sx mx ex) (S754_finite sy my ey) = false ->
  let ez := Z.min ex ey in
  (cond_Zopp sx (Z.pos (fst (shl_align mx ex ez)))
   - cond_Zopp sy (Z.pos (fst (shl_align my ey ez))) <> 0)%Z.
Proof.
  intros Hx Hy Hne ez.
  rewrite !shl_align_value by (unfold ez; lia).
  assert (Hpx : (0 < 2 ^ (ex - ez))%Z)
    by (apply Z.pow_pos_nonneg; unfold ez; lia).
  assert (Hpy : (0 < 2 ^ (ey - ez))%Z)
    by (apply Z.pow_pos_nonneg; unfold ez; lia).
  assert (Hd : sx = sy -> (Z.pos mx * 2 ^ (ex - ez)
                           <> Z.pos my * 2 ^ (ey - ez))%Z).
  { intros ->. destruct (Z.lt_trichotomy ex ey) as [Hlt | [Heq | Hgt]].
    - pose proof (aligned_mantissas_differ _ _ _ _ _ _ Hx Hy Hlt).
      unfold ez. rewrite Z.min_l, Z.sub_diag by lia. simpl (2 ^ 0)%Z. lia.
    - subst ey. unfold ez. rewrite Z.min_id, Z.sub_diag. simpl (2 ^ 0)%Z.
      unfold eqb, SFcompare in Hne. rewrite Z.compare_refl in Hne.
      change (Pos.compare_cont Eq mx my) with (Pos.compare mx my) in Hne.
      destruct (Pos.compare_spec mx my) as [-> | H | H];
        [destruct sy; discriminate|lia|lia].
    - pose proof (aligned_mantissas_differ _ _ _ _ _ _ Hy Hx Hgt).
      unfold ez. rewrite Z.min_r, Z.sub_diag by lia. simpl (2 ^ 0)%Z. lia. }
  destruct sx, sy; cbn [cond_Zopp];
    try (specialize (Hd eq_refl)); nia.
Qed.

(** Two valid numbers that differ have a difference that is not zero. *)
Lemma sub_nonzero (a b : float) :
  valid_float a = true -> valid_float b = true ->
  is_nan a = false -> is_nan b = false ->
  eqb a b = false ->
  nonzero (sub a b).
Proof.
  intros Va Vb Na Nb Hne.
  destruct a as [sa|sa| |sa ma ea], b as [sb|sb| |sb mb eb];
    try discriminate;
    try (destruct sa, sb; try discriminate; constructor);
    try (destruct sa; constructor); try (destruct sb; constructor).
  unfold sub, SFsub. apply binary_normalize_nonzero.
  - now apply finite_difference.
  - destruct (valid_finite _ _ _ Va) as (Ha & _).
    destruct (valid_finite _ _ _ Vb) as (Hb & _). lia.
Qed.

(** Two numbers that compare equal have a zero as their difference, or
    none when they are the same infinity. *)
Lemma sub_equal (a b : float) :
  eqb a b = true -> (exists s, sub a b = S754_zero s) \/ sub a b = nan.
Proof.
  destruct a as [sa|sa| |sa ma ea], b as [sb|sb| |sb mb eb];
    try (intros H; discriminate H);
    try (destruct sa, sb; intros H; try discriminate H;
         first [left; eexists; reflexivity | right; reflexivity]);
    try (destruct sa; intros H; discriminate H);
    try (destruct sb; intros H; discriminate H).
  unfold eqb, SFcompare.
  change (Pos.compare_cont Eq ma mb) with (Pos.compare ma mb).
  intros H. left. exists false.
  assert (E : sa = sb /\ ea = eb /\ ma = mb).
  { destruct sa, sb; try discriminate;
      destruct (Z.compare_spec ea eb); try discriminate;
      destruct (Pos.compare_spec ma mb); try discriminate; auto. }
  destruct E as (-> & -> & ->).
  unfold sub, SFsub. rewrite Z.sub_diag. reflexivity.
Qed.

End DifferenceFacts.

(** X18. With the threshold zero, which is the default, the detector fires
    on every change and on nothing else: for numbers of binary64, an
    in-range sample fires against the baseline exactly when it is not
    equal to it, and then becomes the baseline. *)
Theorem zero_threshold_fires_on_change args (b v : float) :
  Float64.eqb (threshold args) Float64.zero = true ->
  valid_float b = true -> valid_float v = true ->
  Float64.is_nan b = false -> Float64.is_nan v = false ->
  value_in_range v (min_value args) (max_value args) = true ->
  change_detector args (Some b) v
  = if Float64.eqb v b
    then ([], Ok (Some b))
    else ([Beep; PrintChange b v], Ok (Some v)).
Proof.
  intros Ht Vb Vv Nb Nv Hin.
  assert (Hz : forall x, Float64.gt (Float64.abs x) (threshold args)
                         = Float64.gt (Float64.abs x) Float64.zero).
  { intros x. destruct (threshold args) as [s|s| |s m e];
      try discriminate; try (destruct s; discriminate).
    destruct x; reflexivity. }
  destruct (Float64.eqb v b) eqn:E.
  - apply change_detector_quiet; [exact Hin|]. rewrite Hz.
    destruct (DifferenceFacts.sub_equal v b E) as [[s ->] | ->];
      reflexivity.
  - apply change_detector_alert; [exact Hin|]. rewrite Hz.
    apply RoundingFacts.nonzero_gt.
    now apply DifferenceFacts.sub_nonzero.
Qed.

Lemma zero_threshold_fires_on_change_witness :
  change_detector default_args (Some (lit "7.0")) (lit "7.5")
  = ([Beep; PrintChange (lit "7.0") (lit "7.5")], Ok (Some (lit "7.5"))).
Proof.
  apply (zero_threshold_fires_on_change default_args (lit "7.0") (lit "7.5"));
    vm_compute; reflexivity.
Defined.

(** ** The range as an interval *)

Lemma not_lt_iff_le (x y : float) :
  Float64.is_nan x = false ->
  negb (Float64.lt x y) = Float64.is_nan y || Float64.le y x.
Proof.
  intros Hx. unfold Float64.lt, Float64.le.
  rewrite (Float64Facts.compare_swap x y).
  destruct (Float64.is_nan y) eqn:Hy.
  - destruct y; try discriminate.
    now rewrite Float64Facts.compare_nan_r.
  - destruct (Float64Facts.compare_total x y Hx Hy) as [c ->].
    destruct c; reflexivity.
Qed.

Lemma not_gt_iff_le (x y : float) :
  Float64.is_nan x = false ->
  negb (Float64.gt x y) = Float64.is_nan y || Float64.le x y.
Proof.
  intros Hx. unfold Float64.gt, Float64.le.
  destruct (Float64.is_nan y) eqn:Hy.
  - destruct y; try discriminate.
    now rewrite Float64Facts.compare_nan_r.
  - destruct (Float64Facts.compare_total x y Hx Hy) as [c ->].
    destruct c; reflexivity.
Qed.

(** X19. For a value that is no NaN the range check is the test of the
    closed interval: the value is in range exactly when [min <= value] for
    a present lower bound and [value <= max] for a present upper bound. A
    bound that is a NaN excludes nothing, as if it were absent. *)
Theorem value_in_range_interval (value : float)
  (min_value max_value : option float) :
  Float64.is_nan value = false ->
  value_in_range value min_value max_value
  = above value min_value && below value max_value.
Proof.
  intros Hv. unfold value_in_range, above, below.
  destruct min_value as [lo|], max_value as [hi|]; simpl.
  - rewrite <- (not_lt_iff_le _ lo Hv), <- (not_gt_iff_le _ hi Hv).
    destruct (Float64.lt value lo), (Float64.gt value hi); reflexivity.
  - rewrite <- (not_lt_iff_le _ lo Hv).
    destruct (Float64.lt value lo); reflexivity.
  - rewrite <- (not_gt_iff_le _ hi Hv).
    destruct (Float64.gt value hi); reflexivity.
  - reflexivity.
Qed.

Lemma value_in_range_interval_witness :
  value_in_range (lit "5") (Some (lit "nan")) (Some (lit "10"))
  = above (lit "5") (Some (lit "nan")) && below (lit "5") (Some (lit "10")).
Proof. apply value_in_range_interval. reflexivity. Defined.

Lemma ge_of_le (x y : float) :
  Float64.le x y = true -> exists c, SFcompare y x = Some c /\ c <> Lt.
Proof.
  unfold Float64.le. rewrite (Float64Facts.compare_swap x y).
  destruct (SFcompare x y) as [[]|]; try discriminate; intros _;
    eexists; (split; [reflexivity|discriminate]).
Qed.

Lemma le_lt_false (x y z : float) :
  Float64.le x y = true -> Float64.lt z y = false -> Float64.lt z x = false.
Proof.
  intros Hxy. destruct (ge_of_le x y Hxy) as (c & Hyx & Hc).
  unfold Float64.lt. intros Hzy.
  destruct (SFcompare z x) as [[]|] eqn:Hzx; try reflexivity.
  exfalso.
  assert (Hxz : SFcompare x z = Some Gt)
    by (rewrite (Float64Facts.compare_swap z x), Hzx; reflexivity).
  pose proof (Float64Facts.compare_ge_gt y x z c Hyx Hc Hxz) as H.
  rewrite (Float64Facts.compare_swap y z), H in Hzy. discriminate.
Qed.

Lemma le_gt_false (x y z : float) :
  Float64.le x y = true -> Float64.gt z x = false -> Float64.gt z y = false.
Proof.
  intros Hxy. destruct (ge_of_le x y Hxy) as (c & Hyx & Hc).
  unfold Float64.gt. intros Hzx.
  destruct (SFcompare z y) as [[]|] eqn:Hzy; try reflexivity.
  exfalso. destruct c; try congruence.
  - rewrite (Float64Facts.compare_swap x z) in Hzx.
    rewrite <- (Float64Facts.compare_eq_left y x z Hyx) in Hzx.
    rewrite (Float64Facts.compare_swap z y), Hzy in Hzx. discriminate.
  - rewrite (Float64Facts.compare_ge_gt z y x Gt Hzy
               ltac:(discriminate) Hyx) in Hzx.
    discriminate.
Qed.

(** X20. Widening the range excludes nothing more: a value in range stays
    in range when a bound is dropped or moved outwards. *)
Theorem value_in_range_widen (value : float)
  (min_value max_value min_value' max_value' : option float) :
  lower_bound_wider min_value' min_value ->
  upper_bound_wider max_value' max_value ->
  value_in_range value min_value max_value = true ->
  value_in_range value min_value' max_value' = true.
Proof.
  unfold value_in_range, lower_bound_wider, upper_bound_wider.
  intros Hlo Hhi H.
  assert (H1 : match min_value with
               | Some lo => Float64.lt value lo
               | None => false
               end = false)
    by (destruct min_value as [lo|]; [destruct (Float64.lt value lo)|];
        congruence).
  rewrite H1 in H.
  assert (H2 : match max_value with
               | Some hi => Float64.gt value hi
               | None => false
               end = false)
    by (destruct max_value as [hi|]; [destruct (Float64.gt value hi)|];
        congruence).
  destruct min_value' as [lo'|].
  - destruct min_value as [lo|]; [|contradiction].
    rewrite (le_lt_false _ _ _ Hlo H1).
    destruct max_value' as [hi'|]; [|reflexivity].
    destruct max_value as [hi|]; [|contradiction].
    now rewrite (le_gt_false _ _ _ Hhi H2).
  - destruct max_value' as [hi'|]; [|reflexivity].
    destruct max_value as [hi|]; [|contradiction].
    now rewrite (le_gt_false _ _ _ Hhi H2).
Qed.

Lemma value_in_range_widen_witness :
  value_in_range (lit "5") None (Some (lit "100")) = true.
Proof.
  apply (value_in_range_widen (lit "5") (Some (lit "3")) (Some (lit "10"))).
  - exact I.
  - vm_compute. reflexivity.
  - vm_compute. reflexivity.
Defined.

(** Numbers compare equal when they are the same or both are zeros. *)
Lemma eqb_cases (v w : float) :
  Float64.eqb v w = true ->
  v = w \/ exists s s', v = S754_zero s /\ w = S754_zero s'.
Proof.
  destruct v as [sv|sv| |sv mv ev], w as [sw|sw| |sw mw ew];
    try (intros H; discriminate H);
    try (destruct sv; intros H; discriminate H);
    try (destruct sw; intros H; discriminate H).
  - intros _. right. eauto.
  - destruct sv, sw; intros H; try discriminate H; now left.
  - unfold Float64.eqb, SFcompare.
    change (Pos.compare_cont Eq mv mw) with (Pos.compare mv mw).
    intros H. left.
    destruct sv, sw; try discriminate;
      destruct (Z.compare_spec ev ew); try discriminate;
      destruct (Pos.compare_spec mv mw); try discriminate;
      subst; reflexivity.
Qed.

(** X21. Values that compare equal are in range together and differ alike
    from any baseline, so they fire together; minus zero and plus zero are
    one value to the monitor. *)
Theorem equal_values_alike args (v w : float) :
  Float64.eqb v w = true ->
  value_in_range v (min_value args) (max_value args)
  = value_in_range w (min_value args) (max_value args) /\
  forall b,
    Float64.gt (Float64.abs (Float64.sub v b)) (threshold args)
    = Float64.gt (Float64.abs (Float64.sub w b)) (threshold args).
Proof.
  intros H. split.
  - unfold Float64.eqb in H.
    destruct (SFcompare v w) as [[]|] eqn:E; try discriminate.
    unfold value_in_range, Float64.lt, Float64.gt.
    destruct (min_value args) as [lo|], (max_value args) as [hi|];
      rewrite ?(Float64Facts.compare_eq_left v w lo E),
              ?(Float64Facts.compare_eq_left v w hi E); reflexivity.
  - intros b. destruct (eqb_cases v w H) as [-> | (s & s' & -> & ->)];
      [reflexivity|].
    destruct b as [sb|sb| |sb mb eb]; try reflexivity.
    destruct s, s', sb; reflexivity.
Qed.

Lemma equal_values_alike_witness :
  value_in_range (lit "-0.0") (min_value example_args)
    (max_value example_args)
  = value_in_range (lit "0.0") (min_value example_args)
      (max_value example_args).
Proof.
  refine (proj1 (equal_values_alike example_args (lit "-0.0") (lit "0.0") _)).
  reflexivity.
Defined.

(** ** The characters of a float literal *)

Module LiteralFacts.

Ltac by_char c := destruct c as [[] [] [] [] [] [] [] []].

Lemma number_unfold (s : string) :
  number s
  = match digitpart 0 s with
    | Some (i, _, r) =>
        match r with
        | String c r' =>
            if Ascii.eqb c "."
            then match digitpart i r' with
                 | Some res => Some res
                 | None => Some (i, O, r')
                 end
            else Some (i, O, r)
        | EmptyString => Some (i, O, r)
        end
    | None =>
        match s with
        | String c r' => if Ascii.eqb c "." then digitpart 0 r' else None
        | EmptyString => None
        end
    end.
Proof.
  unfold number. destruct (digitpart 0 s) as [[[i k] r]|].
  - destruct r as [|c r']; [reflexivity|]. by_char c; reflexivity.
  - destruct s as [|c r']; [reflexivity|]. by_char c; reflexivity.
Qed.

Lemma exponent_sign_unfold (r : string) :
  match r with
  | String "+"%char r1 => (false, r1)
  | String "-"%char r1 => (true, r1)
  | _ => (false, r)
  end
  = match r with
    | String c r1 =>
        if Ascii.eqb c "+" then (false, r1)
        else if Ascii.eqb c "-" then (true, r1)
        else (false, r)
    | EmptyString => (false, r)
    end.
Proof. destruct r as [|c r1]; [reflexivity|]. by_char c; reflexivity. Qed.

Lemma float_of_string_unfold (s : string) :
  float_of_string s
  = match strip s with
    | String c r =>
        if Ascii.eqb c "+" then absfloatvalue false r
        else if Ascii.eqb c "-" then absfloatvalue true r
        else absfloatvalue false (String c r)
    | EmptyString => absfloatvalue false EmptyString
    end.
Proof.
  unfold float_of_string. destruct (strip s) as [|c r]; [reflexivity|].
  by_char c; reflexivity.
Qed.

Lemma float_char_digit (c : ascii) : is_digit c = true -> float_char c = true.
Proof. unfold float_char. now intros ->. Qed.

Lemma float_char_space (c : ascii) :
  float_space c = true -> float_char c = true.
Proof. by_char c; vm_compute; intros H; congruence. Qed.

Lemma float_char_eqb (c d : ascii) :
  Ascii.eqb c d = true -> float_char d = true -> float_char c = true.
Proof. intros H. apply Ascii.eqb_eq in H. now subst. Qed.

Lemma digitpart_tail_chars (n : nat) : forall (s : string) (acc : N) (cnt : nat),
  String.length s <= n ->
  string_forall float_char (snd (digitpart_tail acc cnt s)) = true ->
  string_forall float_char s = true.
Proof.
  induction n as [|n IH]; intros s acc cnt Hlen;
    destruct s as [|c s']; simpl in Hlen; try lia; try (intros; reflexivity).
  cbn [digitpart_tail].
  destruct (is_digit c) eqn:Hc.
  - intros H. cbn [string_forall].
    rewrite (float_char_digit c Hc), (IH s' _ _ ltac:(lia) H). reflexivity.
  - destruct (Ascii.eqb c "_") eqn:Hu; [|now intros H].
    destruct s' as [|d s'']; [now intros H|].
    destruct (is_digit d) eqn:Hd; [|now intros H].
    intros H. cbn [string_forall].
    rewrite (float_char_eqb c "_" Hu eq_refl), (float_char_digit d Hd).
    simpl in Hlen. rewrite (IH s'' _ _ ltac:(lia) H). reflexivity.
Qed.

Lemma digitpart_chars (s : string) (acc : N) (res : N * nat * string) :
  digitpart acc s = Some res ->
  string_forall float_char (snd res) = true ->
  string_forall float_char s = true.
Proof.
  unfold digitpart. destruct s as [|c s']; [discriminate|].
  destruct (is_digit c) eqn:Hc; [|discriminate].
  intros H. injection H as <-. intros H. cbn [string_forall].
  rewrite (float_char_digit c Hc).
  now rewrite (digitpart_tail_chars (String.length s') s' _ _ (le_n _) H).
Qed.

Lemma number_chars (s : string) (res : N * nat * string) :
  number s = Some res ->
  string_forall float_char (snd res) = true ->
  string_forall float_char s = true.
Proof.
  rewrite number_unfold.
  destruct (digitpart 0 s) as [[[i k] r]|] eqn:E.
  - assert (Hr : string_forall float_char r = true ->
                 string_forall float_char s = true)
      by (apply (digitpart_chars s 0 (i, k, r) E)).
    destruct r as [|c r']; [intros H; injection H as <-; exact Hr|].
    destruct (Ascii.eqb c ".") eqn:Hc;
      [|intros H; injection H as <-; exact Hr].
    assert (Hr' : string_forall float_char r' = true ->
                  string_forall float_char s = true).
    { intros H. apply Hr. cbn [string_forall].
      now rewrite (float_char_eqb c "." Hc eq_refl), H. }
    destruct (digitpart i r') as [res'|] eqn:E'.
    + intros H. injection H as <-. intros H. apply Hr'.
      exact (digitpart_chars r' i res' E' H).
    + intros H. injection H as <-. exact Hr'.
  - destruct s as [|c r']; [discriminate|].
    destruct (Ascii.eqb c ".") eqn:Hc; [|discriminate].
    intros H H'. cbn [string_forall].
    rewrite (float_char_eqb c "." Hc eq_refl).
    exact (digitpart_chars r' 0 res H H').
Qed.

Lemma exponent_chars (s : string) (res : Z * string) :
  exponent s = Some res ->
  string_forall float_char (snd res) = true ->
  string_forall float_char s = true.
Proof.
  unfold exponent. destruct s as [|c r]; [discriminate|].
  destruct (Ascii.eqb c "e" || Ascii.eqb c "E") eqn:Hc; [|discriminate].
  assert (Fc : float_char c = true).
  { apply orb_prop in Hc as [Hc | Hc];
      [exact (float_char_eqb c "e" Hc eq_refl)
      |exact (float_char_eqb c "E" Hc eq_refl)]. }
  rewrite exponent_sign_unfold.
  assert (Hsign : forall neg r1,
            (string_forall float_char r1 = true ->
             string_forall float_char r = true) ->
            match digitpart 0 r1 with
            | Some (n, _, r2) =>
                Some (if neg : bool then (- Z.of_N n)%Z else Z.of_N n, r2)
            | None => None
            end = Some res ->
            string_forall float_char (snd res) = true ->
            string_forall float_char (String c r) = true).
  { intros neg r1 Hr1.
    destruct (digitpart 0 r1) as [[[n k] r2]|] eqn:E; [|discriminate].
    intros H. injection H as <-. intros H. cbn [string_forall].
    rewrite Fc. apply Hr1.
    exact (digitpart_chars r1 0 (n, k, r2) E H). }
  destruct r as [|c1 r1]; [apply (Hsign false EmptyString); auto|].
  destruct (Ascii.eqb c1 "+") eqn:Hp.
  - apply (Hsign false r1). intros H. cbn [string_forall].
    now rewrite (float_char_eqb c1 "+" Hp eq_refl), H.
  - destruct (Ascii.eqb c1 "-") eqn:Hm.
    + apply (Hsign true r1). intros H. cbn [string_forall].
      now rewrite (float_char_eqb c1 "-" Hm eq_refl), H.
    + apply (Hsign false (String c1 r1)). auto.
Qed.

Lemma floatnumber_chars (neg : bool) (s : string) (x : float) :
  floatnumber neg s = Some x -> string_forall float_char s = true.
Proof.
  unfold floatnumber. destruct (number s) as [[[m k] r]|] eqn:E;
    [|discriminate].
  assert (Hr : string_forall float_char r = true ->
               string_forall float_char s = true)
    by (apply (number_chars s (m, k, r) E)).
  destruct r as [|c r']; [intros _; now apply Hr|].
  destruct (exponent (String c r')) as [[e r2]|] eqn:E2; [|discriminate].
  destruct r2; [|discriminate]. intros _. apply Hr.
  exact (exponent_chars _ _ E2 eq_refl).
Qed.

Lemma lower_letter (c : ascii) :
  char_in (lower c) "aefinty" = true -> float_char c = true.
Proof. by_char c; vm_compute; intros H; congruence. Qed.

Lemma word_chars (s : string) : forall w : string,
  map_string lower s = w ->
  string_forall (fun c => char_in c "aefinty") w = true ->
  string_forall float_char s = true.
Proof.
  induction s as [|c s IH]; intros w Hw; [reflexivity|].
  simpl in Hw. subst w. cbn [string_forall]. intros H.
  apply andb_prop in H as [Hc Hs].
  now rewrite (lower_letter c Hc), (IH _ eq_refl Hs).
Qed.

Lemma absfloatvalue_chars (neg : bool) (s : string) (x : float) :
  absfloatvalue neg s = Some x -> string_forall float_char s = true.
Proof.
  unfold absfloatvalue.
  destruct (String.eqb (map_string lower s) "inf") eqn:E1.
  - intros _. apply String.eqb_eq in E1.
    exact (word_chars s _ E1 eq_refl).
  - destruct (String.eqb (map_string lower s) "infinity") eqn:E2.
    + intros _. apply String.eqb_eq in E2.
      exact (word_chars s _ E2 eq_refl).
    + simpl. destruct (String.eqb (map_string lower s) "nan") eqn:E3.
      * intros _. apply String.eqb_eq in E3.
        exact (word_chars s _ E3 eq_refl).
      * apply floatnumber_chars.
Qed.

Lemma lstrip_chars (s : string) :
  string_forall float_char (lstrip s) = true ->
  string_forall float_char s = true.
Proof.
  induction s as [|c s IH]; [reflexivity|]. simpl.
  destruct (float_space c) eqn:Hc; [|auto].
  intros H. now rewrite (float_char_space c Hc), (IH H).
Qed.

Lemma rstrip_chars (s : string) :
  string_forall float_char (rstrip s) = true ->
  string_forall float_char s = true.
Proof.
  induction s as [|c s IH]; [reflexivity|]. cbn [rstrip string_forall].
  destruct (rstrip s) as [|d r].
  - destruct (float_space c) eqn:Hc.
    + intros _. now rewrite (float_char_space c Hc), (IH eq_refl).
    + cbn [string_forall]. rewrite andb_true_r. intros ->.
      now rewrite (IH eq_refl).
  - cbn [string_forall]. intros H. apply andb_prop in H as [-> H].
    now rewrite (IH H).
Qed.

(** What [float] accepts is made of the characters of float literals. *)
Lemma float_of_string_chars (s : string) (x : float) :
  float_of_string s = Some x -> string_forall float_char s = true.
Proof.
  rewrite float_of_string_unfold. intros H.
  apply lstrip_chars, rstrip_chars. fold (strip s).
  destruct (strip s) as [|c r]; [reflexivity|].
  destruct (Ascii.eqb c "+") eqn:Hp.
  - cbn [string_forall]. rewrite (float_char_eqb c "+" Hp eq_refl).
    exact (absfloatvalue_chars _ _ _ H).
  - destruct (Ascii.eqb c "-") eqn:Hm.
    + cbn [string_forall]. rewrite (float_char_eqb c "-" Hm eq_refl).
      exact (absfloatvalue_chars _ _ _ H).
    + exact (absfloatvalue_chars _ _ _ H).
Qed.

End LiteralFacts.

(** X22. A token that holds a character foreign to float literals, such as
    a unit or a percent sign glued to a number, is never taken for a
    value: the extractor passes over it and goes on with the rest of the
    text. *)
Theorem foreign_token_skipped (t rest : string) (d : ascii) :
  is_token is_separator t -> is_separator d = true ->
  string_forall float_char t = false ->
  float_of_string t = None /\
  extract_value t = None /\
  extract_value (t ++ String d rest) = extract_value rest.
Proof.
  intros Ht Hd Hf.
  assert (Hn : float_of_string t = None).
  { destruct (float_of_string t) as [x|] eqn:E; [|reflexivity].
    rewrite (LiteralFacts.float_of_string_chars t x E) in Hf.
    discriminate. }
  unfold extract_value. rewrite !tokens_of_split.
  rewrite (split_on_last _ _ Ht), (split_on_cons _ _ _ _ Ht Hd).
  simpl. rewrite Hn. auto.
Qed.

Lemma foreign_token_skipped_witness :
  extract_value "42.5%, mem 10" = extract_value " mem 10".
Proof.
  refine (proj2 (proj2 (foreign_token_skipped "42.5%" " mem 10" "," _ _ _)));
    [split; [discriminate|reflexivity]|reflexivity|reflexivity].
Defined.
